(** * AnimePixels API: a shallow embedding of the route handlers

    The development follows the TypeScript sources:

    - [lib/auth]    : the category allow-list, [validateCategory] and the
                      [authenticateAdmin] middleware;
    - [routes/media]: [getLimit], [getOffset], [validateSearchQuery] and the
                      public read handlers;
    - [routes/admin]: [normalizeArrayField] and the bulk-upload handler.

    Conventions of the model.

    - A JavaScript string is a [string]; its characters are the code units
      below 256 (the Latin-1 range), on which [toLowerCase], [trim] and the
      regular expression class [\s] are modelled exactly.
    - A JavaScript number that the handlers compute with is an integer, so
      it is a [Z]; [NaN] is [None] in the result of [parseInt].
    - Exceptions are values of [Exc]: [Throw msg] is a thrown [Error] whose
      [message] is [msg].
    - The database is an explicit state [Db]; the SQL statements of the
      handlers are functions on its [media] table.  The CDN, the token
      library and [JSON.parse] are parameters. *)

From Stdlib Require Import ZArith List String Ascii Bool Lia.
From Stdlib Require Import Sorting.Permutation.
From Stdlib Require Import Numbers.DecimalString.
From Stdlib Require Numbers.DecimalNat.
Import ListNotations.

Local Open Scope string_scope.
Local Open Scope Z_scope.

(** ** JavaScript strings *)

Module Js.

(** The members of [WhiteSpace] and [LineTerminator] below 256: TAB, LF, VT,
    FF, CR, SP and NBSP.  [\s], [String.prototype.trim] and [parseInt] all
    use this class. *)
Definition isWhiteSpace (c : ascii) : bool :=
  let n := nat_of_ascii c in
  ((9 <=? n) && (n <=? 13))%nat || (n =? 32)%nat || (n =? 160)%nat.

(** [toLowerCase] on one code unit: A-Z, and the Latin-1 capitals
    U+00C0..U+00DE without the multiplication sign U+00D7. *)
Definition toLowerChar (c : ascii) : ascii :=
  let n := nat_of_ascii c in
  if ((65 <=? n) && (n <=? 90))%nat
     || ((192 <=? n) && (n <=? 222) && negb (n =? 215))%nat
  then ascii_of_nat (n + 32) else c.

Fixpoint toLowerCase (s : string) : string :=
  match s with
  | EmptyString => EmptyString
  | String c s' => String (toLowerChar c) (toLowerCase s')
  end.

(** [s.replace(/\s+/g, '_')]: every maximal run of white space becomes one
    underscore.  [inRun] tells that the previous character was white
    space, whose underscore has been emitted already. *)
Fixpoint replaceRuns (inRun : bool) (s : string) : string :=
  match s with
  | EmptyString => EmptyString
  | String c s' =>
      if isWhiteSpace c
      then if inRun then replaceRuns true s'
           else String "_" (replaceRuns true s')
      else String c (replaceRuns false s')
  end.

Definition replaceWhitespace (s : string) : string := replaceRuns false s.

Fixpoint trimStart (s : string) : string :=
  match s with
  | EmptyString => EmptyString
  | String c s' => if isWhiteSpace c then trimStart s' else s
  end.

(** [trimEnd] keeps a character when it is not white space or when
    something is kept after it. *)
Fixpoint trimEnd (s : string) : string :=
  match s with
  | EmptyString => EmptyString
  | String c s' =>
      match trimEnd s' with
      | EmptyString => if isWhiteSpace c then EmptyString
                       else String c EmptyString
      | r => String c r
      end
  end.

Definition trim (s : string) : string := trimEnd (trimStart s).

Definition startsWith (s p : string) : bool := String.prefix p s.

(** [s.substring(n)] *)
Fixpoint substringFrom (n : nat) (s : string) : string :=
  match n, s with
  | O, _ => s
  | S n', String _ s' => substringFrom n' s'
  | S _, EmptyString => EmptyString
  end.

(** [s.includes(p)] *)
Fixpoint includes (s p : string) : bool :=
  String.prefix p s ||
  match s with
  | EmptyString => false
  | String _ s' => includes s' p
  end.

Definition strlen (s : string) : Z := Z.of_nat (String.length s).

(** [String(n)] for a natural number [n]. *)
Definition natToString (n : nat) : string :=
  NilZero.string_of_uint (Nat.to_uint n).

(** [xs.join(sep)] *)
Fixpoint join (sep : string) (xs : list string) : string :=
  match xs with
  | [] => ""
  | [x] => x
  | x :: rest => x ++ sep ++ join sep rest
  end.

(** *** [parseInt(s)] without a radix

    White space is skipped, a sign is read, a [0x]/[0X] prefix selects radix
    16, and the longest prefix of digits is the value; what follows the
    digits is ignored.  No digit at all gives [NaN]. *)

Definition digitValue (c : ascii) : option Z :=
  let n := nat_of_ascii c in
  if ((48 <=? n) && (n <=? 57))%nat then Some (Z.of_nat (n - 48))
  else if ((97 <=? n) && (n <=? 122))%nat then Some (Z.of_nat (n - 87))
  else if ((65 <=? n) && (n <=? 90))%nat then Some (Z.of_nat (n - 55))
  else None.

Definition digitIn (radix : Z) (c : ascii) : option Z :=
  match digitValue c with
  | Some d => if d <? radix then Some d else None
  | None => None
  end.

(** The digits of the longest valid prefix, accumulated left to right;
    [seen] tells whether a digit has been read. *)
Fixpoint readDigits (radix : Z) (s : string) (acc : Z) (seen : bool)
  : option Z :=
  match s with
  | EmptyString => if seen then Some acc else None
  | String c s' =>
      match digitIn radix c with
      | Some d => readDigits radix s' (acc * radix + d) true
      | None => if seen then Some acc else None
      end
  end.

Definition stripSign (s : string) : Z * string :=
  match s with
  | String "-" s' => (-1, s')
  | String "+" s' => (1, s')
  | _ => (1, s)
  end.

Definition stripHexPrefix (s : string) : Z * string :=
  match s with
  | String "0" (String "x" s') => (16, s')
  | String "0" (String "X" s') => (16, s')
  | _ => (10, s)
  end.

Definition parseInt (s : string) : option Z :=
  let '(sign, s1) := stripSign (trimStart s) in
  let '(radix, s2) := stripHexPrefix s1 in
  match readDigits radix s2 0 false with
  | Some v => Some (sign * v)
  | None => None
  end.

(** [x || d] for a number [x]: [NaN] and [0] are falsy. *)
Definition orDefault (x : option Z) (d : Z) : Z :=
  match x with
  | Some v => if v =? 0 then d else v
  | None => d
  end.

End Js.

(** ** Exceptions *)

Inductive Exc (A : Type) : Type :=
| Ok (a : A)
| Throw (message : string).
Arguments Ok {A} a.
Arguments Throw {A} message.

Definition bindExc {A B : Type} (m : Exc A) (k : A -> Exc B) : Exc B :=
  match m with
  | Ok a => k a
  | Throw msg => Throw msg
  end.

Notation "x <- m ;; k" := (bindExc m (fun x => k))
  (at level 61, m at next level, right associativity).

(** ** Query parameters

    A value of [req.query] as Express types it:
    [undefined | string | string[] | ParsedQs | ParsedQs[]]. *)

Inductive QueryValue : Type :=
| QUndefined
| QString (s : string)
| QStrings (xs : list string)
| QObject
| QObjects (n : nat).

(** [String(v)], which [parseInt] applies to its argument. *)
Definition queryToString (v : QueryValue) : string :=
  match v with
  | QUndefined => "undefined"
  | QString s => s
  | QStrings xs => Js.join "," xs
  | QObject => "[object Object]"
  | QObjects n => Js.join "," (repeat "[object Object]" n)
  end.

(** ** routes/media: pagination helpers *)

Definition DEFAULT_LIMIT : Z := 50.
Definition MAX_LIMIT : Z := 200.
Definition SEARCH_LIMIT : Z := 100.

Definition getLimit (limitParam : QueryValue) : Z :=
  let limit := Js.orDefault (Js.parseInt (queryToString limitParam))
                            DEFAULT_LIMIT in
  Z.min (Z.max 1 limit) MAX_LIMIT.

Definition getOffset (offsetParam : QueryValue) : Z :=
  let offset := Js.orDefault (Js.parseInt (queryToString offsetParam)) 0 in
  Z.max 0 offset.

Definition validateSearchQuery (searchQuery : QueryValue) : Exc string :=
  match searchQuery with
  | QString (String c s) =>
      let trimmed := Js.trim (String c s) in
      if Js.strlen trimmed =? 0
      then Throw "Search query cannot be empty"
      else if 255 <? Js.strlen trimmed
      then Throw "Search query too long (max 255 characters)"
      else Ok trimmed
  | _ => Throw "Search query is required"
  end.

(** ** lib/auth *)

Module Auth.

Definition ALLOWED_CATEGORIES : list string :=
  [ "naruto"; "one_piece"; "demon_slayer"; "jujutsu_kaisen";
    "attack_on_titan"; "dragon_ball"; "my_hero_academia"; "pokemon";
    "spy_x_family"; "solo_leveling"; "nature"; "popular_anime" ].

(** [set.has(x)] *)
Definition has (set : list string) (x : string) : bool :=
  existsb (String.eqb x) set.

Definition normalize (category : string) : string :=
  Js.replaceWhitespace (Js.toLowerCase category).

Definition validateCategory (category : string) : Exc string :=
  let normalized := normalize category in
  if negb (has ALLOWED_CATEGORIES normalized)
  then Throw ("Invalid category: " ++ category)
  else Ok normalized.

(** A value found in a decoded token. *)
Inductive JsVal : Type :=
| VUndefined
| VNull
| VBool (b : bool)
| VNum (n : Z)
| VStr (s : string)
| VObj.

Definition truthy (v : JsVal) : bool :=
  match v with
  | VUndefined | VNull => false
  | VBool b => b
  | VNum n => negb (n =? 0)
  | VStr s => negb (String.eqb s "")
  | VObj => true
  end.

Record AdminPayload : Type := mkPayload {
  sub : JsVal;
  is_admin : JsVal;
  exp : JsVal
}.

(** What [jwt.verify(token, JWT_SECRET, {algorithms})] does: it returns the
    decoded claims or throws an error with a [name]. *)
Inductive VerifyOutcome : Type :=
| Verified (decoded : AdminPayload)
| VerifyThrows (name : string).

(** What the middleware does with the request: it answers, or it stores the
    claims in [req.admin] and calls [next()]. *)
Inductive Middleware : Type :=
| Rejected (status : Z) (error : string)
| Next (admin : AdminPayload).

Section Authenticate.

Variable jwt_verify : string -> VerifyOutcome.

Definition authenticateAdmin (authorization : option string) : Middleware :=
  match authorization with
  | None => Rejected 401 "Missing or invalid authorization header"
  | Some authHeader =>
      if String.eqb authHeader "" || negb (Js.startsWith authHeader "Bearer ")
      then Rejected 401 "Missing or invalid authorization header"
      else
        let token := Js.substringFrom 7 authHeader in
        match jwt_verify token with
        | Verified decoded =>
            if negb (truthy (is_admin decoded))
            then Rejected 403 "Insufficient permissions"
            else Next decoded
        | VerifyThrows name =>
            if String.eqb name "TokenExpiredError"
            then Rejected 401 "Token expired"
            else Rejected 401 "Invalid token"
        end
  end.

End Authenticate.

End Auth.

(** ** lib/db: the media table and the SQL statements of the handlers *)

Module Sql.

(** A row of [media].  A [NULL] in [visible] is read as [false]: every
    statement filters with [visible = true]. *)
Record MediaRow : Type := mkRow {
  id : Z;
  title : string;
  category : string;
  url : string;
  media_type : string;
  views : Z;
  visible : bool;
  created_at : Z;
  updated_at : Z
}.

(** The connection pool ([pool] is [false] for [null]), the table, the
    sequence behind [id SERIAL] and the defaults of the two columns that
    have one in [CREATE TABLE]. *)
Record Db : Type := mkDb {
  pool : bool;
  media : list MediaRow;
  next_id : Z;
  default_views : Z;
  default_visible : bool
}.

(** [getConnection]: it throws before the pool exists. *)
Definition getConnection (db : Db) : Exc unit :=
  if negb (pool db) then Throw "Database not initialized" else Ok tt.

(** [ORDER BY key DESC], as a stable insertion sort: rows with equal keys
    keep the order of the table. *)
Fixpoint insertDesc (key : MediaRow -> Z) (r : MediaRow)
  (sorted : list MediaRow) : list MediaRow :=
  match sorted with
  | [] => [r]
  | x :: rest =>
      if key r <? key x then x :: insertDesc key r rest
      else r :: x :: rest
  end.

Fixpoint orderByDesc (key : MediaRow -> Z) (rows : list MediaRow)
  : list MediaRow :=
  match rows with
  | [] => []
  | r :: rest => insertDesc key r (orderByDesc key rest)
  end.

(** [LIMIT limit OFFSET offset] *)
Definition limitOffset (limit offset : Z) (rows : list MediaRow)
  : list MediaRow :=
  firstn (Z.to_nat limit) (skipn (Z.to_nat offset) rows).

(** [subject LIKE pattern] with [%], [_] and the backslash escape.  The
    patterns of the handlers end with [%], so none ends with an escape
    character that escapes nothing. *)
Fixpoint like (pattern subject : string) : bool :=
  match pattern with
  | EmptyString =>
      match subject with EmptyString => true | _ => false end
  | String "%" p' =>
      (fix star (s : string) : bool :=
         like p' s ||
         match s with
         | EmptyString => false
         | String _ s' => star s'
         end) subject
  | String "_" p' =>
      match subject with
      | EmptyString => false
      | String _ s' => like p' s'
      end
  | String "\" (String c p') =>
      match subject with
      | EmptyString => false
      | String c' s' => Ascii.eqb c c' && like p' s'
      end
  | String c p' =>
      match subject with
      | EmptyString => false
      | String c' s' => Ascii.eqb c c' && like p' s'
      end
  end.

(** [LOWER(x)] *)
Definition LOWER (s : string) : string := Js.toLowerCase s.

(** The [WHERE] clauses. *)
Definition whereVisible (r : MediaRow) : bool := visible r.

Definition whereType (t : string) (r : MediaRow) : bool :=
  String.eqb (media_type r) t && visible r.

Definition whereCategoryType (c t : string) (r : MediaRow) : bool :=
  String.eqb (category r) c && String.eqb (media_type r) t && visible r.

Definition whereIdType (i : Z) (t : string) (r : MediaRow) : bool :=
  (id r =? i) && visible r && String.eqb (media_type r) t.

Definition whereSearch (t pattern : string) (r : MediaRow) : bool :=
  visible r && String.eqb (media_type r) t &&
  (like pattern (LOWER (title r)) || like pattern (LOWER (category r))).

(** [SELECT * FROM media WHERE w ORDER BY key DESC LIMIT l OFFSET o] *)
Definition selectPage (db : Db) (w : MediaRow -> bool)
  (key : MediaRow -> Z) (limit offset : Z) : Exc (list MediaRow) :=
  _ <- getConnection db ;;
  Ok (limitOffset limit offset (orderByDesc key (filter w (media db)))).

(** [SELECT COUNT( * ) as total FROM media WHERE w]: the count arrives as
    the decimal text of a [bigint]. *)
Definition selectCount (db : Db) (w : MediaRow -> bool) : Exc string :=
  _ <- getConnection db ;;
  Ok (Js.natToString (List.length (filter w (media db)))).

(** [SELECT * FROM media WHERE w] *)
Definition selectWhere (db : Db) (w : MediaRow -> bool)
  : Exc (list MediaRow) :=
  _ <- getConnection db ;;
  Ok (filter w (media db)).

(** [SELECT * FROM media WHERE w ORDER BY RANDOM() LIMIT 1]: [rnd] is the
    draw of the engine, which selects one of the matching rows. *)
Definition selectRandom (db : Db) (w : MediaRow -> bool) (rnd : nat)
  : Exc (list MediaRow) :=
  _ <- getConnection db ;;
  let rows := filter w (media db) in
  Ok (match nth_error rows (rnd mod List.length rows) with
      | Some r => [r]
      | None => []
      end).

(** [UPDATE media SET views = views + 1 WHERE id = i] *)
Definition updateViews (db : Db) (i : Z) : Exc Db :=
  _ <- getConnection db ;;
  Ok (mkDb (pool db)
        (map (fun r =>
                if id r =? i
                then mkRow (id r) (title r) (category r) (url r)
                       (media_type r) (views r + 1) (visible r)
                       (created_at r) (updated_at r)
                else r) (media db))
        (next_id db) (default_views db) (default_visible db)).

(** [INSERT INTO media (title, category, url, media_type, visible, views)
     VALUES (...) RETURNING ...].  A column of the statement is [Some v];
    [None] stands for a column the statement leaves to its default.
    [fault] is a failure the engine reports for this statement, [now] is
    [CURRENT_TIMESTAMP]. *)
Definition insertMedia (db : Db) (fault : option string) (now : Z)
  (title category url media_type : string)
  (visibleCol : option bool) (viewsCol : option Z) : Exc (MediaRow * Db) :=
  _ <- getConnection db ;;
  match fault with
  | Some msg => Throw msg
  | None =>
      let row :=
        mkRow (next_id db) title category url media_type
          (match viewsCol with Some v => v | None => default_views db end)
          (match visibleCol with Some b => b | None => default_visible db end)
          now now in
      Ok (row,
          mkDb (pool db) (media db ++ [row]) (next_id db + 1)
            (default_views db) (default_visible db))
  end.

End Sql.

(** ** routes/media: the public read handlers *)

Module Media.

Import Sql.

(** The JSON payloads of the handlers, one constructor per shape. *)
Inductive Body : Type :=
| ErrorBody (error : string)
| ListBody (media_type : string) (total returned limit offset : Z)
    (results : list MediaRow)
| EmptyListBody (error : string) (total returned limit offset : Z)
    (results : list MediaRow)
| SearchBody (query : string) (total returned limit offset : Z)
    (results : list MediaRow)
| EmptySearchBody (error query : string) (total : Z)
    (results : list MediaRow)
| CategoryBody (category : string) (total returned limit offset : Z)
    (results : list MediaRow)
| EmptyCategoryBody (error category : string) (total : Z)
    (results : list MediaRow)
| RowBody (row : MediaRow).

Record Response : Type := mkResponse {
  status : Z;
  body : Body
}.

(** [res.json(b)] answers 200, [res.status(n).json(b)] answers [n]. *)
Definition json (b : Body) : Response := mkResponse 200 b.

(** The rows a payload carries in [results]. *)
Definition resultsOf (b : Body) : list MediaRow :=
  match b with
  | ListBody _ _ _ _ _ rs | EmptyListBody _ _ _ _ _ rs
  | SearchBody _ _ _ _ _ rs | EmptySearchBody _ _ _ rs
  | CategoryBody _ _ _ _ _ rs | EmptyCategoryBody _ _ _ rs => rs
  | ErrorBody _ | RowBody _ => []
  end.

(** The [total] field of a payload. *)
Definition totalOf (b : Body) : option Z :=
  match b with
  | ListBody _ t _ _ _ _ | EmptyListBody _ t _ _ _ _
  | SearchBody _ t _ _ _ _ | EmptySearchBody _ _ t _
  | CategoryBody _ t _ _ _ _ | EmptyCategoryBody _ _ t _ => Some t
  | ErrorBody _ | RowBody _ => None
  end.

(** The [limit] field of a payload. *)
Definition limitOf (b : Body) : option Z :=
  match b with
  | ListBody _ _ _ l _ _ | EmptyListBody _ _ _ l _ _
  | SearchBody _ _ _ l _ _ | CategoryBody _ _ _ l _ _ => Some l
  | _ => None
  end.

(** The row a payload consists of. *)
Definition rowOf (b : Body) : option MediaRow :=
  match b with
  | RowBody r => Some r
  | _ => None
  end.

(** [parseInt(countResult.rows[0].total) || 0] *)
Definition parseTotal (total : string) : Z :=
  Js.orDefault (Js.parseInt total) 0.

Definition rowsLength (rows : list MediaRow) : Z :=
  Z.of_nat (List.length rows).

(** The [catch] clause of the handlers without a category or a search
    query: every exception is a 500. *)
Definition catch500 (r : Exc Response) : Response :=
  match r with
  | Ok res => res
  | Throw msg => mkResponse 500 (ErrorBody msg)
  end.

(** The [catch] clause of the category handlers. *)
Definition catchCategory (r : Exc Response) : Response :=
  match r with
  | Ok res => res
  | Throw msg =>
      if Js.startsWith msg "Invalid category"
      then mkResponse 400 (ErrorBody msg)
      else mkResponse 500 (ErrorBody msg)
  end.

(** The [catch] clause of the search handlers. *)
Definition catchSearch (r : Exc Response) : Response :=
  match r with
  | Ok res => res
  | Throw msg =>
      if Js.includes msg "Search query"
      then mkResponse 400 (ErrorBody msg)
      else mkResponse 500 (ErrorBody msg)
  end.

(** [/all-images] and [/all-gifs] differ in the type they select and in
    the text of the 404. *)
Definition allOfType (t noneMsg : string) (db : Db)
  (limitParam offsetParam : QueryValue) : Response :=
  catch500 (
    let limit := getLimit limitParam in
    let offset := getOffset offsetParam in
    result <- selectPage db (whereType t) created_at limit offset ;;
    countResult <- selectCount db (whereType t) ;;
    let total := parseTotal countResult in
    if rowsLength result =? 0
    then Ok (mkResponse 404 (EmptyListBody noneMsg 0 0 limit offset []))
    else Ok (json (ListBody t total (rowsLength result) limit offset
                     result))).

Definition allImages := allOfType "image" "No images available".
Definition allGifs := allOfType "gif" "No gifs available".

(** [/random], [/random/image] and [/random/gif] *)
Definition randomWhere (w : MediaRow -> bool) (noneMsg : string) (db : Db)
  (rnd : nat) : Response :=
  catch500 (
    result <- selectRandom db w rnd ;;
    match result with
    | [] => Ok (mkResponse 404 (ErrorBody noneMsg))
    | row :: _ => Ok (json (RowBody row))
    end).

Definition random := randomWhere whereVisible "No media available".
Definition randomImage :=
  randomWhere (whereType "image") "No images available".
Definition randomGif := randomWhere (whereType "gif") "No gifs available".

(** [/random/image/:category] and [/random/gif/:category] *)
Definition randomInCategory (t noneMsg : string) (db : Db)
  (categoryParam : string) (rnd : nat) : Response :=
  catchCategory (
    category <- Auth.validateCategory categoryParam ;;
    result <- selectRandom db (whereCategoryType category t) rnd ;;
    match result with
    | [] => Ok (mkResponse 404 (ErrorBody noneMsg))
    | row :: _ => Ok (json (RowBody row))
    end).

Definition randomImageByCategory :=
  randomInCategory "image" "No images in this category".
Definition randomGifByCategory :=
  randomInCategory "gif" "No gifs in this category".

(** [incrementViews]: a failure of the update is logged and dropped. *)
Definition incrementViews (db : Db) (mediaId : Z) : Db :=
  match updateViews db mediaId with
  | Ok db' => db'
  | Throw _ => db
  end.

(** [isNaN(mediaId) || mediaId < 1] *)
Definition invalidId (mediaId : option Z) : bool :=
  match mediaId with
  | None => true
  | Some n => n <? 1
  end.

(** [/image/id/:media_id] and [/gif/id/:media_id].  The handler answers
    and, on a hit, starts the update of the view counter, which the second
    component accounts for. *)
Definition byId (t notFoundMsg : string) (db : Db) (media_id : string)
  : Response * Db :=
  let mediaId := Js.parseInt media_id in
  if invalidId mediaId
  then (mkResponse 400 (ErrorBody "Invalid media ID"), db)
  else
    let n := match mediaId with Some n => n | None => 0 end in
    match selectWhere db (whereIdType n t) with
    | Throw msg => (mkResponse 500 (ErrorBody msg), db)
    | Ok [] => (mkResponse 404 (ErrorBody notFoundMsg), db)
    | Ok (media :: _) => (json (RowBody media), incrementViews db n)
    end.

Definition imageById := byId "image" "Image not found".
Definition gifById := byId "gif" "GIF not found".

(** [/search/image] and [/search/gif] *)
Definition searchOfType (t noneMsg : string) (db : Db)
  (q limitParam offsetParam : QueryValue) : Response :=
  catchSearch (
    searchQuery <- validateSearchQuery q ;;
    let limit := getLimit limitParam in
    let offset := getOffset offsetParam in
    let searchPattern := "%" ++ Js.toLowerCase searchQuery ++ "%" in
    result <- selectPage db (whereSearch t searchPattern) views
                (Z.min limit SEARCH_LIMIT) offset ;;
    if rowsLength result =? 0
    then Ok (mkResponse 404 (EmptySearchBody noneMsg searchQuery 0 []))
    else
      countResult <- selectCount db (whereSearch t searchPattern) ;;
      let total := parseTotal countResult in
      Ok (json (SearchBody searchQuery total (rowsLength result)
                  (Z.min limit SEARCH_LIMIT) offset result))).

Definition searchImage := searchOfType "image" "No images found".
Definition searchGif := searchOfType "gif" "No gifs found".

(** [/image/:category] and [/gif/:category] *)
Definition byCategory (t noneMsg : string) (db : Db)
  (categoryParam : string) (limitParam offsetParam : QueryValue)
  : Response :=
  catchCategory (
    category <- Auth.validateCategory categoryParam ;;
    let limit := getLimit limitParam in
    let offset := getOffset offsetParam in
    result <- selectPage db (whereCategoryType category t) created_at
                limit offset ;;
    if rowsLength result =? 0
    then Ok (mkResponse 404 (EmptyCategoryBody noneMsg category 0 []))
    else
      countResult <- selectCount db (whereCategoryType category t) ;;
      let total := parseTotal countResult in
      Ok (json (CategoryBody category total (rowsLength result) limit
                  offset result))).

Definition imagesByCategory := byCategory "image" "No images in this category".
Definition gifsByCategory := byCategory "gif" "No gifs in this category".

End Media.

(** ** routes/admin: bulk upload *)

Module Admin.

Import Sql.

(** The columns that [RETURNING] lists. *)
Record MediaRecord : Type := mkRecord {
  rec_id : Z;
  rec_title : string;
  rec_category : string;
  rec_url : string;
  rec_media_type : string;
  rec_views : Z;
  rec_visible : bool
}.

Definition returning (r : MediaRow) : MediaRecord :=
  mkRecord (id r) (title r) (category r) (url r) (media_type r) (views r)
    (visible r).

Record UploadedMediaItem : Type := mkItem {
  item_filename : string;
  item_title : string;
  item_category : string;
  item_media : MediaRecord
}.

Record UploadError : Type := mkError {
  err_filename : string;
  err_index : nat;
  err_error : string
}.

Record UploadFile : Type := mkFile {
  fieldname : string;
  originalname : string;
  encoding : string;
  mimetype : string;
  size : Z;
  buffer : string
}.

(** A field of the multipart body: absent, given once, repeated, or given
    with nested names ([titles[a]]), which the parser turns into an
    object. *)
Inductive BodyField : Type :=
| FUndefined
| FString (s : string)
| FArray (xs : list string)
| FObject.

Record UploadParams : Type := mkParams {
  resource_type : string;
  folder : string;
  use_filename : bool;
  unique_filename : bool;
  timeout : Z;
  format : option string;
  flags : option string
}.

(** What the callback of [upload_stream] receives: an error, or a result
    with or without [secure_url]. *)
Inductive CdnOutcome : Type :=
| CdnError (message : string)
| CdnResult (secure_url : option string).

Inductive AdminBody : Type :=
| AdminError (error : string)
| AdminErrorDetails (error details : string)
| CountMismatch (error hint : string) (files titles categories : Z)
| BulkUploadResponse (success failed : Z)
    (uploaded_media : list UploadedMediaItem) (errors : list UploadError).

Record AdminResponse : Type := mkAdminResponse {
  status : Z;
  body : AdminBody
}.

(** What the loop records for one file: an uploaded item or an error. *)
Definition Outcome : Type := (UploadedMediaItem + UploadError)%type.

(** The [uploaded_media] of a payload. *)
Definition uploadedMediaOf (b : AdminBody) : list UploadedMediaItem :=
  match b with
  | BulkUploadResponse _ _ uploaded_media _ => uploaded_media
  | _ => []
  end.

(** The accumulators of the upload loop, and the database. *)
Record LoopState : Type := mkLoop {
  uploadedMedia : list UploadedMediaItem;
  errors : list UploadError;
  successCount : Z;
  failedCount : Z;
  db : Db
}.

(** [files.map((_, idx) => `${singleTitle} ${idx + 1}`)] *)
Definition replicateTitle (singleTitle : string) (nfiles : nat)
  : list string :=
  map (fun idx => singleTitle ++ " " ++ Js.natToString (idx + 1))
      (seq 0 nfiles).

(** [Array(files.length).fill(singleCategory)] *)
Definition replicateCategory (singleCategory : string) (nfiles : nat)
  : list string :=
  repeat singleCategory nfiles.

(** The two [if]s that replicate a single title and a single category. *)
Definition normalizeTitles (titles : list string) (nfiles : nat)
  : list string :=
  match titles with
  | [singleTitle] =>
      if (1 <? nfiles)%nat then replicateTitle singleTitle nfiles
      else titles
  | _ => titles
  end.

Definition normalizeCategories (categories : list string) (nfiles : nat)
  : list string :=
  match categories with
  | [singleCategory] =>
      if (1 <? nfiles)%nat then replicateCategory singleCategory nfiles
      else categories
  | _ => categories
  end.

(** [['image', 'gif'].includes(media_type)] *)
Definition validMediaType (media_type : BodyField) : option string :=
  match media_type with
  | FString s =>
      if String.eqb s "image" || String.eqb s "gif" then Some s else None
  | _ => None
  end.

Definition countText (what : string) (n nfiles : nat) : string :=
  what ++ " count (" ++ Js.natToString n ++ ") != files count ("
       ++ Js.natToString nfiles ++ ")".

Section BulkUpload.

(** The environment of the handler.  [JSON_parse_array s] is [Some xs] when
    [JSON.parse(s)] returns an array, [xs] holding [String(x)] of each
    element [x] (the handler reads the elements through [String] and a
    template literal only).  [upload_stream idx] is the answer of the CDN
    to the upload of file [idx], [insert_fault idx] a failure of its
    [INSERT], and [clock idx] the time of that statement. *)
Variable JSON_parse_array : string -> option (list string).
Variable upload_stream : nat -> UploadParams -> UploadFile -> CdnOutcome.
Variable insert_fault : nat -> option string.
Variable clock : nat -> Z.

Definition normalizeArrayField (field : BodyField) : list string :=
  match field with
  | FUndefined => []
  | FArray xs => xs
  | FString s =>
      if String.eqb s "" then []
      else match JSON_parse_array s with
           | Some parsed => parsed
           | None => [s]
           end
  | FObject => []
  end.

(** The body of the [try] of one iteration. *)
Definition processFile (idx : nat) (file : UploadFile)
  (titles categories : list string) (media_type : string) (d : Db)
  : Exc (UploadedMediaItem * Db) :=
  let title := Js.trim (nth idx titles "undefined") in
  let category := Js.trim (nth idx categories "undefined") in
  if String.eqb title "" then Throw "Title cannot be empty"
  else
    category <- Auth.validateCategory category ;;
    let gif := String.eqb media_type "gif" in
    let uploadParams :=
      mkParams "image" ("animepixels/" ++ category) true true 60000
        (if gif then Some "gif" else None)
        (if gif then Some "animated" else None) in
    match upload_stream idx uploadParams file with
    | CdnError msg => Throw msg
    | CdnResult None | CdnResult (Some EmptyString) =>
        Throw "Cloudinary did not return secure_url"
    | CdnResult (Some secureUrl) =>
        inserted <- insertMedia d (insert_fault idx) (clock idx) title
                      category secureUrl media_type (Some true) (Some 0) ;;
        let '(row, d') := inserted in
        Ok (mkItem (originalname file) title category (returning row), d')
    end.

(** One iteration: the [try] and its [catch]. *)
Definition step (idx : nat) (file : UploadFile)
  (titles categories : list string) (media_type : string) (st : LoopState)
  : LoopState :=
  match processFile idx file titles categories media_type (db st) with
  | Ok (uploadedItem, d') =>
      mkLoop (uploadedMedia st ++ [uploadedItem]) (errors st)
        (successCount st + 1) (failedCount st) d'
  | Throw msg =>
      mkLoop (uploadedMedia st)
        (errors st ++ [mkError (originalname file) idx msg])
        (successCount st) (failedCount st + 1) (db st)
  end.

(** [for (let idx = 0; idx < files.length; idx++)], from [idx] on. *)
Fixpoint loop (idx : nat) (files : list UploadFile)
  (titles categories : list string) (media_type : string) (st : LoopState)
  : LoopState :=
  match files with
  | [] => st
  | file :: rest =>
      loop (S idx) rest titles categories media_type
        (step idx file titles categories media_type st)
  end.

(** The outcomes of the iterations from [idx] on, file by file: the result
    of [processFile] on each file, in the database its predecessors
    left. *)
Fixpoint fileOutcomes (idx : nat) (files : list UploadFile)
  (titles categories : list string) (media_type : string) (d : Db)
  : list Outcome :=
  match files with
  | [] => []
  | file :: rest =>
      match processFile idx file titles categories media_type d with
      | Ok (uploadedItem, d') =>
          inl uploadedItem
            :: fileOutcomes (S idx) rest titles categories media_type d'
      | Throw msg =>
          inr (mkError (originalname file) idx msg)
            :: fileOutcomes (S idx) rest titles categories media_type d
      end
  end.

(** The handler of [POST /bulk-upload], behind [authenticateAdmin] and the
    multipart parser.  [cloud_name] is [cloudinary.config().cloud_name]. *)
Definition bulkUpload (cloud_name : option string)
  (files : list UploadFile) (titlesField categoriesField : BodyField)
  (media_typeField : BodyField) (d : Db) : AdminResponse * Db :=
  match cloud_name with
  | None | Some EmptyString =>
      (mkAdminResponse 500
         (AdminErrorDetails "Cloudinary is not configured"
            "Missing CLOUDINARY_CLOUD_NAME, CLOUDINARY_API_KEY, or CLOUDINARY_API_SECRET"),
       d)
  | Some _ =>
      let nfiles := List.length files in
      let titles := normalizeArrayField titlesField in
      let categories := normalizeArrayField categoriesField in
      if (nfiles =? 0)%nat
      then (mkAdminResponse 400 (AdminError "No files provided"), d)
      else
        let titles := normalizeTitles titles nfiles in
        let categories := normalizeCategories categories nfiles in
        let received :=
          fun error hint =>
            (mkAdminResponse 400
               (CountMismatch error hint (Z.of_nat nfiles)
                  (Z.of_nat (List.length titles))
                  (Z.of_nat (List.length categories))), d) in
        if negb (List.length titles =? nfiles)%nat
        then received (countText "Titles" (List.length titles) nfiles)
               "Provide either one title for all files, or one title per file"
        else if negb (List.length categories =? nfiles)%nat
        then received
               (countText "Categories" (List.length categories) nfiles)
               "Provide either one category for all files, or one category per file"
        else
          match validMediaType media_typeField with
          | None =>
              (mkAdminResponse 400
                 (AdminError "media_type must be 'image' or 'gif'"), d)
          | Some media_type =>
              let st := loop 0 files titles categories media_type
                          (mkLoop [] [] 0 0 d) in
              (mkAdminResponse 200
                 (BulkUploadResponse (successCount st) (failedCount st)
                    (uploadedMedia st) (errors st)),
               db st)
          end
  end.

End BulkUpload.

End Admin.

(** ** lib/db: the connection string and the pool *)

Module Database.

Definition buildDatabaseUrl (url : string) : string :=
  if String.eqb url "" then url
  else if negb (Js.includes url "sslmode")
  then if Js.includes url "?"
       then url ++ "&sslmode=require"
       else url ++ "?sslmode=require"
  else url.

(** [new pg.Pool({connectionString, max, ...})], with the number of clients
    that are checked out. *)
Record Pool : Type := mkPool {
  connectionString : string;
  max : nat;
  checkedOut : nat
}.

(** [let pool: pg.Pool | null] *)
Definition PoolState : Type := option Pool.

Definition initializeDatabase (DATABASE_URL : option string)
  (pool : PoolState) : Exc PoolState :=
  match pool with
  | Some _ => Ok pool
  | None =>
      match DATABASE_URL with
      | None | Some EmptyString =>
          Throw "DATABASE_URL environment variable not set"
      | Some url => Ok (Some (mkPool (buildDatabaseUrl url) 5 0))
      end
  end.

(** [getConnection]: [pool.connect()] hands out a client while fewer than
    [max] are checked out.  With all of them out and nobody to release one
    (requests are taken one at a time here), the wait ends with the error
    of [connectionTimeoutMillis]. *)
Definition getConnection (pool : PoolState) : Exc PoolState :=
  match pool with
  | None => Throw "Database not initialized"
  | Some p =>
      if (checkedOut p <? max p)%nat
      then Ok (Some (mkPool (connectionString p) (max p) (S (checkedOut p))))
      else Throw "timeout exceeded when trying to connect"
  end.

(** [conn.release()] *)
Definition release (pool : PoolState) : PoolState :=
  match pool with
  | None => None
  | Some p =>
      Some (mkPool (connectionString p) (max p) (Nat.pred (checkedOut p)))
  end.

(** [query(text, params)]: [run] is what the server answers to the
    statement; the [finally] releases the client on both paths. *)
Definition query {A : Type} (pool : PoolState) (run : Exc A)
  : Exc A * PoolState :=
  match getConnection pool with
  | Throw msg => (Throw msg, pool)
  | Ok held => (run, release held)
  end.

(** [createTables]: the same shape as [query], for the schema statement. *)
Definition createTables (pool : PoolState) (run : Exc unit)
  : Exc unit * PoolState :=
  match getConnection pool with
  | Throw msg => (Throw msg, pool)
  | Ok held => (run, release held)
  end.

(** The handler of [GET /init-db] (routes/admin): the release follows the
    statement inside the [try], so a statement that throws goes to the
    [catch] with the client still checked out. *)
Definition initDb (pool : PoolState) (run : Exc unit) : Z * PoolState :=
  match getConnection pool with
  | Throw _ => (500, pool)
  | Ok held =>
      match run with
      | Ok _ => (200, release held)
      | Throw _ => (500, held)
      end
  end.

(** [initializeDatabaseOnce] of the entry point, on the flag
    [databaseInitialized] and the pool: an exception of either step is
    logged and leaves the flag down. *)
Definition initializeDatabaseOnce (DATABASE_URL : option string)
  (run : Exc unit) (st : bool * PoolState) : bool * PoolState :=
  let '(databaseInitialized, pool) := st in
  if databaseInitialized then st
  else
    match initializeDatabase DATABASE_URL pool with
    | Throw _ => (false, pool)
    | Ok pool1 =>
        match createTables pool1 run with
        | (Ok _, pool2) => (true, pool2)
        | (Throw _, pool2) => (false, pool2)
        end
    end.

End Database.

(** ** lib/auth and routes/admin: token issuance and login *)

Module Login.

Import Auth.

(** [process.env.X || d] *)
Definition envOr (value : option string) (d : string) : string :=
  match value with
  | Some (String c s) => String c s
  | _ => d
  end.


Definition ADMIN_USERNAME (env : option string) : string :=
  envOr env "admin".

Definition ADMIN_PASSWORD (env : option string) : string :=
  envOr env "password".

Inductive LoginBody : Type :=
| LoginError (error : string)
| LoginToken (token : string).

Record LoginResponse : Type := mkLogin {
  status : Z;
  body : LoginBody
}.

(** [a !== b] for a value of the body and a configured string. *)
Definition differs (v : JsVal) (s : string) : bool :=
  match v with
  | VStr x => negb (String.eqb x s)
  | _ => true
  end.

Section Issue.

(** [jwt_sign] is [jwt.sign(payload, JWT_SECRET, {algorithm})], which
    returns the token or throws; [expireMinutes] is the constant
    [JWT_EXPIRE_MINUTES] when it is a number, and [now] is [Date.now()]. *)
Variable jwt_sign : AdminPayload -> Exc string.
Variable expireMinutes : Z.
Variable now : Z.
Variable adminUsername adminPassword : string.

(** [createJwtToken(data)]: the claims of [data] with [exp] added. *)
Definition createJwtToken (data : AdminPayload) : Exc string :=
  jwt_sign
    (mkPayload (sub data) (is_admin data)
       (VNum (now / 1000 + expireMinutes * 60))).

(** The handler of [POST /login] on the two fields of the body. *)
Definition login (username password : JsVal) : LoginResponse :=
  if negb (truthy username) || negb (truthy password)
  then mkLogin 400 (LoginError "Username and password required")
  else if differs username adminUsername || differs password adminPassword
  then mkLogin 401 (LoginError "Invalid credentials")
  else
    match createJwtToken (mkPayload username (VBool true) VUndefined) with
    | Ok token => mkLogin 200 (LoginToken token)
    | Throw msg => mkLogin 500 (LoginError msg)
    end.

End Issue.

End Login.

(** ** routes/admin: the record counts of [GET /tables] *)

Module Tables.

Import Sql.

(** [SUM(CASE WHEN media_type = t THEN 1 ELSE 0 END)]: [NULL] over no row
    at all, else the decimal text of the sum. *)
Definition sumCase (t : string) (rows : list MediaRow) : option string :=
  match rows with
  | [] => None
  | _ =>
      Some (Js.natToString
              (List.length
                 (filter (fun r => String.eqb (media_type r) t) rows)))
  end.

(** [parseInt(x) || 0] for a column that may be [null]: [String(null)] is
    ["null"]. *)
Definition parseCount (x : option string) : Z :=
  Js.orDefault
    (Js.parseInt (match x with Some s => s | None => "null" end)) 0.

Inductive TablesBody : Type :=
| TablesError (error : string)
| TablesOk (status : string) (tables : list string)
    (total_record images gifs : Z).

Record TablesResponse : Type := mkTables {
  status : Z;
  body : TablesBody
}.

(** The handler, behind [authenticateAdmin]. *)
Definition tables (d : Db) : TablesResponse :=
  match getConnection d with
  | Throw msg => mkTables 500 (TablesError msg)
  | Ok _ =>
      let total_records := Some (Js.natToString (List.length (media d))) in
      let images := sumCase "image" (media d) in
      let gifs := sumCase "gif" (media d) in
      mkTables 200
        (TablesOk "ok" ["media"] (parseCount total_records)
           (parseCount images) (parseCount gifs))
  end.

(** The route: the middleware, then the handler. *)
Definition tablesRoute (jwt_verify : string -> Auth.VerifyOutcome)
  (authorization : option string) (d : Db) : TablesResponse :=
  match Auth.authenticateAdmin jwt_verify authorization with
  | Auth.Rejected st msg => mkTables st (TablesError msg)
  | Auth.Next _ => tables d
  end.

End Tables.

(** * Properties *)

(** ** Vocabulary of the statements *)

(** [variantOf canon s]: [s] spells [canon] with any letter in either case
    and with a run of white space where [canon] has an underscore (the
    underscore itself is allowed too). *)
Fixpoint variantOf (canon s : string) {struct canon} : bool :=
  match canon, s with
  | EmptyString, EmptyString => true
  | String c canon', String c' s' =>
      if Js.isWhiteSpace c'
      then Ascii.eqb c "_" && variantOf canon' (Js.trimStart s')
      else Ascii.eqb (Js.toLowerChar c') c && variantOf canon' s'
  | _, _ => false
  end.

Definition isDecimalDigit (c : ascii) : bool :=
  let n := nat_of_ascii c in ((48 <=? n) && (n <=? 57))%nat.

Fixpoint allDigits (s : string) : bool :=
  match s with
  | EmptyString => true
  | String c s' => isDecimalDigit c && allDigits s'
  end.

Fixpoint someNonZero (s : string) : bool :=
  match s with
  | EmptyString => false
  | String c s' => negb (Ascii.eqb c "0") || someNonZero s'
  end.

(** A path parameter that is a positive integer: a decimal numeral without
    sign, made of digits only, at least one of them and not all of them
    zero. *)
Definition isPositiveIntegerText (s : string) : bool :=
  allDigits s && someNonZero s.

(** The number of rows of the table that a [WHERE] clause selects. *)
Definition matching (d : Sql.Db) (w : Sql.MediaRow -> bool) : Z :=
  Z.of_nat (List.length (filter w (Sql.media d))).

(** What a page of [total] matching rows holds for a limit and an offset:
    the rows after the first [offset] ones, [limit] of them at most; the
    answer is a 404 without rows when nothing is left, a 200 otherwise. *)
Definition pageOf (r : Media.Response) (total limit offset : Z) : Prop :=
  Media.rowsLength (Media.resultsOf (Media.body r))
    = Z.min (Z.max (total - offset) 0) limit /\
  (total <= offset ->
   Media.status r = 404 /\ Media.resultsOf (Media.body r) = []) /\
  (offset < total -> Media.status r = 200).

(** The pattern a search query is matched with. *)
Definition searchPatternOf (searchQuery : string) : string :=
  "%" ++ Js.toLowerCase searchQuery ++ "%".

(** A table for the examples: three visible images, a hidden image and a
    visible gif. *)
Definition sample_rows : list Sql.MediaRow :=
  [ Sql.mkRow 1 "Red dragon" "dragon_ball" "https://cdn/1" "image" 5 true 10 10;
    Sql.mkRow 2 "Leaf village" "naruto" "https://cdn/2" "image" 9 true 20 20;
    Sql.mkRow 3 "Straw hat" "one_piece" "https://cdn/3" "image" 0 true 30 30;
    Sql.mkRow 4 "Hidden dragon" "dragon_ball" "https://cdn/4" "image" 2 false
      40 40;
    Sql.mkRow 12 "Dancing dragon" "dragon_ball" "https://cdn/12" "gif" 7 true
      50 50 ].

Definition sample_db : Sql.Db := Sql.mkDb true sample_rows 13 0 true.

(** The uploaded items and the errors among the outcomes of a batch. *)
Fixpoint uploadedOf (os : list Admin.Outcome)
  : list Admin.UploadedMediaItem :=
  match os with
  | [] => []
  | inl item :: rest => item :: uploadedOf rest
  | inr _ :: rest => uploadedOf rest
  end.

Fixpoint errorsOf (os : list Admin.Outcome) : list Admin.UploadError :=
  match os with
  | [] => []
  | inl _ :: rest => errorsOf rest
  | inr e :: rest => e :: errorsOf rest
  end.

(** The outcome at position [i] belongs to the file at position [i]. *)
Definition outcomeOfFile (i : nat) (file : Admin.UploadFile)
  (o : Admin.Outcome) : Prop :=
  match o with
  | inl item => Admin.item_filename item = Admin.originalname file
  | inr e => Admin.err_filename e = Admin.originalname file
             /\ Admin.err_index e = i
  end.

(** A record as it is right after its creation: no view, and visible. *)
Definition freshRecord (m : Admin.MediaRecord) : Prop :=
  Admin.rec_views m = 0 /\ Admin.rec_visible m = true.

Definition freshRow (r : Sql.MediaRow) : Prop :=
  Sql.views r = 0 /\ Sql.visible r = true.

(** A token library that knows three tokens. *)
Definition sample_verify (token : string) : Auth.VerifyOutcome :=
  if String.eqb token "admin-token"
  then Auth.Verified
         (Auth.mkPayload (Auth.VStr "admin") (Auth.VBool true) (Auth.VNum 9))
  else if String.eqb token "user-token"
  then Auth.Verified
         (Auth.mkPayload (Auth.VStr "bob") Auth.VUndefined (Auth.VNum 9))
  else if String.eqb token "old-token"
  then Auth.VerifyThrows "TokenExpiredError"
  else Auth.VerifyThrows "JsonWebTokenError".

(** An environment for the examples: [JSON.parse] finds no array, the CDN
    stores every file but the one at index 1, and no [INSERT] fails. *)
Definition sample_parse (s : string) : option (list string) := None.

Definition sample_cdn (idx : nat) (p : Admin.UploadParams)
  (f : Admin.UploadFile) : Admin.CdnOutcome :=
  if (idx =? 1)%nat then Admin.CdnError "Upload failed"
  else Admin.CdnResult
         (Some ("https://cdn/" ++ Admin.folder p ++ "/"
                  ++ Admin.originalname f)).

Definition sample_fault (idx : nat) : option string := None.

Definition sample_clock (idx : nat) : Z := 100 + Z.of_nat idx.

Definition sample_files : list Admin.UploadFile :=
  [ Admin.mkFile "files" "a.png" "7bit" "image/png" 3 "abc";
    Admin.mkFile "files" "b.png" "7bit" "image/png" 3 "def";
    Admin.mkFile "files" "c.png" "7bit" "image/png" 3 "ghi" ].

(** A table whose column defaults are not those of [CREATE TABLE]. *)
Definition odd_defaults_db : Sql.Db := Sql.mkDb true [] 1 7 false.

(** Rows in descending order of a key. *)
Fixpoint descendingBy (key : Sql.MediaRow -> Z) (rows : list Sql.MediaRow)
  : Prop :=
  match rows with
  | [] => True
  | r :: rest =>
      Forall (fun x => key x <= key r) rest /\ descendingBy key rest
  end.

(** A query without the characters that [LIKE] gives a meaning to. *)
Definition isLikeSpecial (c : ascii) : bool :=
  Ascii.eqb c "%" || Ascii.eqb c "_" || Ascii.eqb c "\".

Fixpoint noLikeSpecial (s : string) : bool :=
  match s with
  | EmptyString => true
  | String c s' => negb (isLikeSpecial c) && noLikeSpecial s'
  end.

(** A query made of [%] only. *)
Fixpoint onlyPercent (s : string) : bool :=
  match s with
  | EmptyString => true
  | String c s' => Ascii.eqb c "%" && onlyPercent s'
  end.

(** A row with [k] more views when its id is [i]. *)
Definition addViews (i k : Z) (r : Sql.MediaRow) : Sql.MediaRow :=
  if Sql.id r =? i
  then Sql.mkRow (Sql.id r) (Sql.title r) (Sql.category r) (Sql.url r)
         (Sql.media_type r) (Sql.views r + k) (Sql.visible r)
         (Sql.created_at r) (Sql.updated_at r)
  else r.

(** [k] lookups of the same id, one after the other, the update of each
    done before the next lookup starts. *)
Fixpoint fetchTimes (t notFoundMsg media_id : string) (k : nat) (d : Sql.Db)
  : list Media.Response * Sql.Db :=
  match k with
  | O => ([], d)
  | S k' =>
      let '(r, d1) := Media.byId t notFoundMsg d media_id in
      let '(rs, d2) := fetchTimes t notFoundMsg media_id k' d1 in
      (r :: rs, d2)
  end.

(** Two rows that differ in their views at most, the second having as
    many or one more. *)
Definition sameButViews (a b : Sql.MediaRow) : Prop :=
  Sql.id a = Sql.id b /\ Sql.title a = Sql.title b /\
  Sql.category a = Sql.category b /\ Sql.url a = Sql.url b /\
  Sql.media_type a = Sql.media_type b /\ Sql.visible a = Sql.visible b /\
  Sql.created_at a = Sql.created_at b /\
  Sql.updated_at a = Sql.updated_at b /\
  Sql.views a <= Sql.views b <= Sql.views a + 1.

(** The answer of a handler whose query found no pool. *)
Definition notInitialized : Media.Response :=
  Media.mkResponse 500 (Media.ErrorBody "Database not initialized").


(** A row as the upload loop stores it. *)
Definition storedRowOk (r : Sql.MediaRow) : Prop :=
  In (Sql.category r) Auth.ALLOWED_CATEGORIES /\
  (Sql.media_type r = "image" \/ Sql.media_type r = "gif") /\
  Sql.title r <> "" /\ Js.trim (Sql.title r) = Sql.title r /\
  Sql.url r <> "" /\ Sql.created_at r = Sql.updated_at r.


(** [k] requests to [/init-db] in a row whose statement fails. *)
Fixpoint initDbFailures (k : nat) (msg : string)
  (pool : Database.PoolState) : Database.PoolState :=
  match k with
  | O => pool
  | S k' => initDbFailures k' msg (snd (Database.initDb pool (Throw msg)))
  end.

(** The number of rows of a type, visible or not. *)
Definition rowsOfType (t : string) (d : Sql.Db) : Z :=
  Z.of_nat
    (List.length
       (filter (fun r => String.eqb (Sql.media_type r) t) (Sql.media d))).

(** A signing function for the examples, and the library that verifies
    what it signed. *)
Definition sample_sign (p : Auth.AdminPayload) : Exc string :=
  match Auth.sub p with
  | Auth.VStr s => Ok ("signed-" ++ s)
  | _ => Throw "payload"
  end.

Definition sample_verify_signed (token : string) : Auth.VerifyOutcome :=
  if String.eqb token "signed-admin"
  then Auth.Verified
         (Auth.mkPayload (Auth.VStr "admin") (Auth.VBool true)
            (Auth.VNum 1703600))
  else Auth.VerifyThrows "JsonWebTokenError".



(** ** Sanity checks of the embedding *)

Example parseInt_examples :
  Js.parseInt "12abc" = Some 12 /\ Js.parseInt "  -7" = Some (-7) /\
  Js.parseInt "0x1F" = Some 31 /\ Js.parseInt "abc" = None /\
  Js.parseInt "" = None /\ Js.parseInt "0x" = None /\
  Js.parseInt "1.5" = Some 1 /\ Js.parseInt "undefined" = None.
Proof. repeat split. Qed.

Example getLimit_examples :
  getLimit (QString "0") = 50 /\ getLimit (QString "-3") = 1 /\
  getLimit (QString "1000") = 200 /\ getLimit (QString "abc") = 50 /\
  getLimit (QStrings ["7"; "9"]) = 7 /\ getLimit QObject = 50.
Proof. repeat split. Qed.

Example string_examples :
  Js.trim "  a b  " = "a b" /\ Js.trim "   " = "" /\
  Js.replaceWhitespace "One   Piece" = "One_Piece" /\
  Js.natToString 0 = "0" /\ Js.natToString 12 = "12" /\
  Sql.like "%drag%" "blue dragon" = true /\
  Sql.like "%drag%" "blue dagger" = false /\
  Sql.like "%a_c%" "xabcx" = true /\ Sql.like "%50\%%" "50% off" = true.
Proof. repeat split. Qed.

Example validateCategory_examples :
  Auth.validateCategory "One Piece" = Ok "one_piece" /\
  Auth.validateCategory "NARUTO" = Ok "naruto" /\
  Auth.validateCategory " naruto" = Throw "Invalid category:  naruto" /\
  Auth.validateCategory "bleach" = Throw "Invalid category: bleach".
Proof. repeat split. Qed.

(** ** Pagination parameters *)

(** C2: the effective limit is in [1, 200] for every value of the parameter
    and is 50 when the parameter is absent; the effective offset is at
    least 0 and is 0 when the parameter is absent. *)
Theorem getLimit_getOffset_clamped :
  (forall limitParam : QueryValue,
     1 <= getLimit limitParam <= 200) /\
  getLimit QUndefined = 50 /\
  (forall offsetParam : QueryValue, 0 <= getOffset offsetParam) /\
  getOffset QUndefined = 0.
Proof.
  repeat split.
  - unfold getLimit, MAX_LIMIT. lia.
  - unfold getLimit, MAX_LIMIT. lia.
  - unfold getOffset. lia.
Qed.

(** ** The category validator *)

Section CategoryValidator.

Import Js Auth.

Lemma isWhiteSpace_toLowerChar (c : ascii) :
  isWhiteSpace (toLowerChar c) = isWhiteSpace c.
Proof.
  destruct c as [[|] [|] [|] [|] [|] [|] [|] [|]]; vm_compute; reflexivity.
Qed.

Lemma toLowerCase_trimStart (s : string) :
  toLowerCase (trimStart s) = trimStart (toLowerCase s).
Proof.
  induction s as [|c s IH]; simpl; [reflexivity|].
  rewrite isWhiteSpace_toLowerChar.
  destruct (isWhiteSpace c); [exact IH | reflexivity].
Qed.

(** Inside a run, the rest of the run is dropped. *)
Lemma replaceRuns_in_run (s : string) :
  replaceRuns true s = replaceRuns false (trimStart s).
Proof.
  induction s as [|c s IH]; simpl; [reflexivity|].
  destruct (isWhiteSpace c) eqn:E; [exact IH|].
  simpl. rewrite E. reflexivity.
Qed.

Lemma variantOf_normalize (canon : string) :
  forall s, variantOf canon s = true -> normalize s = canon.
Proof.
  unfold normalize, replaceWhitespace.
  induction canon as [|c canon IH]; intros [|c' s] H; simpl in H;
    try discriminate; [reflexivity|].
  simpl. rewrite isWhiteSpace_toLowerChar.
  destruct (isWhiteSpace c') eqn:E;
    apply andb_true_iff in H; destruct H as [Hc Hrest];
    apply Ascii.eqb_eq in Hc; subst.
  - rewrite replaceRuns_in_run, <- toLowerCase_trimStart.
    f_equal. apply IH, Hrest.
  - f_equal. apply IH, Hrest.
Qed.

Lemma has_In (set : list string) (x : string) :
  has set x = true <-> In x set.
Proof.
  unfold has. rewrite existsb_exists. split.
  - intros (y & Hy & E). apply String.eqb_eq in E. now subst.
  - intros H. exists x. split; [exact H | apply String.eqb_refl].
Qed.

Lemma validateCategory_allowed (x : string) :
  In x ALLOWED_CATEGORIES -> validateCategory x = Ok x.
Proof.
  intros H. simpl in H.
  repeat (destruct H as [<- | H]; [reflexivity|]). contradiction.
Qed.

Lemma validateCategory_Ok (x y : string) :
  validateCategory x = Ok y <->
  normalize x = y /\ In y ALLOWED_CATEGORIES.
Proof.
  unfold validateCategory.
  destruct (has ALLOWED_CATEGORIES (normalize x)) eqn:E; cbn [negb]; split.
  - intros [= <-]. split; [reflexivity | now apply has_In].
  - intros [<- _]. reflexivity.
  - discriminate.
  - intros [<- H]. apply has_In in H. congruence.
Qed.

(** C5: validating the result of a validation changes nothing, for every
    input (an accepted input yields a canonical value, which validates to
    itself; a rejected input stays rejected); an allowed category validates
    to itself; and every mixed-case or white-space variant of an allowed
    category validates to the value of the canonical form. *)
Theorem validateCategory_idempotent_and_canonical :
  (forall x : string,
     (y <- validateCategory x ;; validateCategory y) = validateCategory x) /\
  (forall canon : string,
     In canon ALLOWED_CATEGORIES -> validateCategory canon = Ok canon) /\
  (forall canon s : string,
     In canon ALLOWED_CATEGORIES -> variantOf canon s = true ->
     validateCategory s = validateCategory canon).
Proof.
  split; [|split].
  - intros x. destruct (validateCategory x) as [y|msg] eqn:E; simpl;
      [|reflexivity].
    apply validateCategory_Ok in E. destruct E as [_ Hy].
    now apply validateCategory_allowed.
  - exact validateCategory_allowed.
  - intros canon s Hin Hvar.
    rewrite (validateCategory_allowed canon Hin).
    apply validateCategory_Ok. split; [|exact Hin].
    now apply variantOf_normalize.
Qed.

Lemma validateCategory_idempotent_and_canonical_witness :
  In "one_piece" ALLOWED_CATEGORIES /\
  variantOf "one_piece" "One   PIECE" = true /\
  validateCategory "One   PIECE" = validateCategory "one_piece" /\
  validateCategory "one_piece" = Ok "one_piece".
Proof.
  assert (Hin : In "one_piece" ALLOWED_CATEGORIES)
    by (simpl; right; left; reflexivity).
  destruct validateCategory_idempotent_and_canonical as (_ & Hself & Hvar).
  split; [exact Hin|]. split; [reflexivity|]. split.
  - apply (Hvar "one_piece" "One   PIECE" Hin). reflexivity.
  - apply (Hself "one_piece" Hin).
Defined.

End CategoryValidator.

(** ** The admin middleware *)

Section AdminMiddleware.

Import Auth.

Variable jwt_verify : string -> VerifyOutcome.

Lemma startsWith_Bearer_nonempty (h : string) :
  Js.startsWith h "Bearer " = true -> String.eqb h "" = false.
Proof. destruct h; [discriminate | reflexivity]. Qed.

(** C6: the middleware answers 401 when the header is missing or does not
    start with the bearer scheme, 401 when the token library rejects the
    token (expired or otherwise invalid), 403 when the decoded claims have
    no truthy [is_admin], and otherwise passes the decoded claims on to the
    handler. *)
Theorem authenticateAdmin_outcomes :
  authenticateAdmin jwt_verify None
    = Rejected 401 "Missing or invalid authorization header" /\
  (forall h : string,
     Js.startsWith h "Bearer " = false ->
     authenticateAdmin jwt_verify (Some h)
       = Rejected 401 "Missing or invalid authorization header") /\
  (forall h : string,
     Js.startsWith h "Bearer " = true ->
     match jwt_verify (Js.substringFrom 7 h) with
     | VerifyThrows name =>
         authenticateAdmin jwt_verify (Some h)
           = Rejected 401 (if String.eqb name "TokenExpiredError"
                           then "Token expired" else "Invalid token")
     | Verified decoded =>
         if truthy (is_admin decoded)
         then authenticateAdmin jwt_verify (Some h) = Next decoded
         else authenticateAdmin jwt_verify (Some h)
                = Rejected 403 "Insufficient permissions"
     end).
Proof.
  split; [reflexivity|]. split; intros h H; unfold authenticateAdmin.
  - rewrite H. destruct (String.eqb h ""); reflexivity.
  - rewrite H, (startsWith_Bearer_nonempty h H). cbn [negb orb].
    destruct (jwt_verify (Js.substringFrom 7 h)) as [decoded|name].
    + destruct (truthy (is_admin decoded)); simpl; reflexivity.
    + destruct (String.eqb name "TokenExpiredError"); reflexivity.
Qed.

End AdminMiddleware.

Lemma authenticateAdmin_outcomes_witness :
  Auth.authenticateAdmin sample_verify (Some "Basic abc")
    = Auth.Rejected 401 "Missing or invalid authorization header" /\
  Auth.authenticateAdmin sample_verify (Some "Bearer old-token")
    = Auth.Rejected 401 "Token expired" /\
  Auth.authenticateAdmin sample_verify (Some "Bearer forged")
    = Auth.Rejected 401 "Invalid token" /\
  Auth.authenticateAdmin sample_verify (Some "Bearer user-token")
    = Auth.Rejected 403 "Insufficient permissions" /\
  Auth.authenticateAdmin sample_verify (Some "Bearer admin-token")
    = Auth.Next
        (Auth.mkPayload (Auth.VStr "admin") (Auth.VBool true) (Auth.VNum 9)).
Proof.
  destruct (authenticateAdmin_outcomes sample_verify) as (_ & Hbad & Hok).
  split; [apply Hbad; reflexivity|].
  split; [apply (Hok "Bearer old-token"); reflexivity|].
  split; [apply (Hok "Bearer forged"); reflexivity|].
  split; [apply (Hok "Bearer user-token"); reflexivity|].
  apply (Hok "Bearer admin-token"); reflexivity.
Defined.

(** ** Reading a count back *)

Section CountText.

Import Js.

(** The digits of a decimal numeral are read back as its value. *)
Lemma readDigits_string_of_uint (d : Decimal.uint) :
  forall acc : nat,
    readDigits 10 (NilEmpty.string_of_uint d) (Z.of_nat acc) true
    = Some (Z.of_nat (Nat.of_uint_acc d acc)).
Proof.
  induction d; intros acc; simpl NilEmpty.string_of_uint;
    [reflexivity | ..];
    cbn [readDigits Nat.of_uint_acc];
    match goal with
    | |- context [digitIn 10 ?c] =>
        let v := eval vm_compute in (digitIn 10 c) in
        change (digitIn 10 c) with v; cbv iota
    end;
    rewrite <- IHd; f_equal;
    rewrite Nat.tail_mul_spec; lia.
Qed.

(** Evaluates the character tests on the literal characters of the goal. *)
Ltac eval_char_tests :=
  repeat match goal with
    | |- context [isWhiteSpace (Ascii ?a ?b ?c ?d ?e ?f ?g ?h)] =>
        let t := constr:(isWhiteSpace (Ascii a b c d e f g h)) in
        let v := eval vm_compute in t in change t with v; cbv iota
    | |- context [digitIn 10 (Ascii ?a ?b ?c ?d ?e ?f ?g ?h)] =>
        let t := constr:(digitIn 10 (Ascii a b c d e f g h)) in
        let v := eval vm_compute in t in change t with v; cbv iota
    end.

Ltac read_numeral k :=
  unfold parseInt; cbn [trimStart NilEmpty.string_of_uint];
  eval_char_tests; cbn [stripSign stripHexPrefix readDigits];
  eval_char_tests;
  match goal with
  | |- context [readDigits 10 ?s ?acc true] =>
      change acc with (Z.of_nat k)
  end;
  rewrite readDigits_string_of_uint; cbn [Nat.of_uint_acc];
  f_equal; rewrite Z.mul_1_l; reflexivity.

Lemma parseInt_string_of_uint (d : Decimal.uint) :
  parseInt (NilZero.string_of_uint d) = Some (Z.of_nat (Nat.of_uint d)).
Proof.
  unfold Nat.of_uint.
  destruct d as [|d|d|d|d|d|d|d|d|d|d]; cbn [NilZero.string_of_uint];
    [reflexivity | | read_numeral 1%nat | read_numeral 2%nat
     | read_numeral 3%nat | read_numeral 4%nat | read_numeral 5%nat
     | read_numeral 6%nat | read_numeral 7%nat | read_numeral 8%nat
     | read_numeral 9%nat].
  destruct d as [|d|d|d|d|d|d|d|d|d|d];
    [reflexivity | read_numeral 0%nat | read_numeral 1%nat
     | read_numeral 2%nat | read_numeral 3%nat | read_numeral 4%nat
     | read_numeral 5%nat | read_numeral 6%nat | read_numeral 7%nat
     | read_numeral 8%nat | read_numeral 9%nat].
Qed.

Lemma parseInt_natToString (n : nat) :
  parseInt (natToString n) = Some (Z.of_nat n).
Proof.
  unfold natToString. rewrite parseInt_string_of_uint.
  now rewrite DecimalNat.Unsigned.of_to.
Qed.

Lemma parseTotal_natToString (n : nat) :
  Media.parseTotal (natToString n) = Z.of_nat n.
Proof.
  unfold Media.parseTotal. rewrite parseInt_natToString. simpl.
  destruct (Z.of_nat n =? 0) eqn:E; [|reflexivity].
  apply Z.eqb_eq in E. lia.
Qed.

End CountText.

(** ** Pages *)

Section Pages.

Import Sql Media.

Lemma insertDesc_perm (key : MediaRow -> Z) (r : MediaRow) :
  forall rows, Permutation (r :: rows) (insertDesc key r rows).
Proof.
  induction rows as [|x rows IH]; simpl; [reflexivity|].
  destruct (key r <? key x); [|reflexivity].
  rewrite perm_swap. now apply perm_skip.
Qed.

Lemma orderByDesc_perm (key : MediaRow -> Z) :
  forall rows, Permutation rows (orderByDesc key rows).
Proof.
  induction rows as [|r rows IH]; simpl; [reflexivity|].
  rewrite <- insertDesc_perm. now apply perm_skip.
Qed.

Lemma length_orderByDesc (key : MediaRow -> Z) (rows : list MediaRow) :
  List.length (orderByDesc key rows) = List.length rows.
Proof. symmetry. apply Permutation_length, orderByDesc_perm. Qed.

(** [LIMIT] and [OFFSET] on a list of known length. *)
Lemma length_limitOffset (limit offset : Z) (rows : list MediaRow) :
  0 <= limit -> 0 <= offset ->
  rowsLength (limitOffset limit offset rows)
  = Z.min (Z.max (rowsLength rows - offset) 0) limit.
Proof.
  intros Hl Ho. unfold rowsLength, limitOffset.
  rewrite length_firstn, length_skipn. lia.
Qed.

Lemma rowsLength_zero (rows : list MediaRow) :
  (rowsLength rows =? 0) = true <-> rows = [].
Proof.
  unfold rowsLength. rewrite Z.eqb_eq.
  destruct rows; simpl; split; intros H; try reflexivity; try discriminate;
    lia.
Qed.

(** What [selectPage] returns while the pool exists. *)
Lemma selectPage_connected (d : Db) (w : MediaRow -> bool)
  (key : MediaRow -> Z) (limit offset : Z) :
  pool d = true ->
  selectPage d w key limit offset
  = Ok (limitOffset limit offset (orderByDesc key (filter w (media d)))).
Proof. intros H. unfold selectPage, getConnection. now rewrite H. Qed.

Lemma selectCount_connected (d : Db) (w : MediaRow -> bool) :
  pool d = true ->
  selectCount d w = Ok (Js.natToString (List.length (filter w (media d)))).
Proof. intros H. unfold selectCount, getConnection. now rewrite H. Qed.

Lemma length_page (d : Db) (w : MediaRow -> bool) (key : MediaRow -> Z)
  (limit offset : Z) :
  0 <= limit -> 0 <= offset ->
  rowsLength (limitOffset limit offset (orderByDesc key (filter w (media d))))
  = Z.min (Z.max (matching d w - offset) 0) limit.
Proof.
  intros Hl Ho. rewrite length_limitOffset by assumption.
  unfold rowsLength, matching. now rewrite length_orderByDesc.
Qed.

Lemma getLimit_range (p : QueryValue) : 1 <= getLimit p <= 200.
Proof. unfold getLimit, MAX_LIMIT. lia. Qed.

Lemma getOffset_range (p : QueryValue) : 0 <= getOffset p.
Proof. unfold getOffset. lia. Qed.

(** The three paginated handlers answer with the page of their filter. *)
Lemma allOfType_page (t noneMsg : string) (d : Db)
  (limitParam offsetParam : QueryValue) :
  pool d = true ->
  pageOf (allOfType t noneMsg d limitParam offsetParam)
    (matching d (whereType t)) (getLimit limitParam)
    (getOffset offsetParam).
Proof.
  intros Hpool.
  pose proof (getLimit_range limitParam) as Hl.
  pose proof (getOffset_range offsetParam) as Ho.
  pose proof (length_page d (whereType t) created_at (getLimit limitParam)
                (getOffset offsetParam) ltac:(lia) Ho) as Hlen.
  unfold allOfType.
  rewrite selectPage_connected, selectCount_connected by assumption.
  cbn [bindExc catch500].
  set (page := limitOffset _ _ _) in *.
  destruct (rowsLength page =? 0) eqn:E; unfold pageOf; cbn.
  - apply rowsLength_zero in E. rewrite E in Hlen.
    unfold rowsLength in Hlen at 1. simpl in Hlen.
    repeat split; try reflexivity; lia.
  - apply Z.eqb_neq in E. repeat split; lia.
Qed.

Lemma searchOfType_page (t noneMsg : string) (d : Db)
  (q limitParam offsetParam : QueryValue) (searchQuery : string) :
  pool d = true ->
  validateSearchQuery q = Ok searchQuery ->
  pageOf (searchOfType t noneMsg d q limitParam offsetParam)
    (matching d (whereSearch t (searchPatternOf searchQuery)))
    (Z.min (getLimit limitParam) 100) (getOffset offsetParam).
Proof.
  intros Hpool Hq.
  pose proof (getLimit_range limitParam) as Hl.
  pose proof (getOffset_range offsetParam) as Ho.
  pose proof (length_page d (whereSearch t (searchPatternOf searchQuery))
                views (Z.min (getLimit limitParam) 100)
                (getOffset offsetParam) ltac:(lia) Ho) as Hlen.
  unfold searchOfType. rewrite Hq. cbn [bindExc].
  fold (searchPatternOf searchQuery). unfold SEARCH_LIMIT.
  rewrite selectPage_connected by assumption. cbn [bindExc].
  set (page := limitOffset _ _ _) in *.
  set (total := matching _ _) in *.
  destruct (rowsLength page =? 0) eqn:E; unfold pageOf.
  - cbn. apply rowsLength_zero in E. rewrite E in Hlen.
    unfold rowsLength in Hlen at 1. simpl in Hlen.
    repeat split; try reflexivity; lia.
  - rewrite selectCount_connected by assumption. cbn.
    apply Z.eqb_neq in E. repeat split; lia.
Qed.

Lemma byCategory_page (t noneMsg : string) (d : Db) (categoryParam : string)
  (limitParam offsetParam : QueryValue) (category : string) :
  pool d = true ->
  Auth.validateCategory categoryParam = Ok category ->
  pageOf (byCategory t noneMsg d categoryParam limitParam offsetParam)
    (matching d (whereCategoryType category t)) (getLimit limitParam)
    (getOffset offsetParam).
Proof.
  intros Hpool Hc.
  pose proof (getLimit_range limitParam) as Hl.
  pose proof (getOffset_range offsetParam) as Ho.
  pose proof (length_page d (whereCategoryType category t) created_at
                (getLimit limitParam) (getOffset offsetParam)
                ltac:(lia) Ho) as Hlen.
  unfold byCategory. rewrite Hc. cbn [bindExc].
  rewrite selectPage_connected by assumption. cbn [bindExc].
  set (page := limitOffset _ _ _) in *.
  destruct (rowsLength page =? 0) eqn:E; unfold pageOf.
  - cbn. apply rowsLength_zero in E. rewrite E in Hlen.
    unfold rowsLength in Hlen at 1. simpl in Hlen.
    repeat split; try reflexivity; lia.
  - rewrite selectCount_connected by assumption. cbn.
    apply Z.eqb_neq in E. repeat split; lia.
Qed.

End Pages.

(** ** Pagination of the list, search and category handlers *)

(** C1, as stated, fails: with three visible images, [limit=2] and
    [offset=2], [/all-images] answers 200 with the one row that is left,
    not with [min 3 2 = 2] rows. *)
Lemma returned_min_total_limit_counterexample :
  Sql.pool sample_db = true /\
  matching sample_db (Sql.whereType "image") = 3 /\
  getLimit (QString "2") = 2 /\
  getOffset (QString "2") = 2 /\
  Media.status (Media.allImages sample_db (QString "2") (QString "2")) = 200 /\
  Media.rowsLength
    (Media.resultsOf
       (Media.body (Media.allImages sample_db (QString "2") (QString "2"))))
  = 1 /\
  Media.rowsLength
    (Media.resultsOf
       (Media.body (Media.allImages sample_db (QString "2") (QString "2"))))
  <> Z.min (matching sample_db (Sql.whereType "image"))
           (getLimit (QString "2")).
Proof. repeat split. discriminate. Qed.

(** C1, amended: while the database answers, the number of rows a list,
    search or category handler returns is
    [min (max (total_matching - offset) 0) limit], where [limit] and
    [offset] are the effective ones (for a search, the limit capped at
    100); when the offset is at or beyond the number of matching rows the
    answer is a 404 without rows, otherwise it is a 200.  The statement is
    for both media types ([t] is ["image"] or ["gif"]). *)
Theorem paginated_handlers_return_the_page
  (t noneMsg : string) (d : Sql.Db) (limitParam offsetParam : QueryValue) :
  Sql.pool d = true ->
  pageOf (Media.allOfType t noneMsg d limitParam offsetParam)
    (matching d (Sql.whereType t)) (getLimit limitParam)
    (getOffset offsetParam) /\
  (forall (q : QueryValue) (searchQuery : string),
     validateSearchQuery q = Ok searchQuery ->
     pageOf (Media.searchOfType t noneMsg d q limitParam offsetParam)
       (matching d (Sql.whereSearch t (searchPatternOf searchQuery)))
       (Z.min (getLimit limitParam) 100) (getOffset offsetParam)) /\
  (forall categoryParam category : string,
     Auth.validateCategory categoryParam = Ok category ->
     pageOf (Media.byCategory t noneMsg d categoryParam limitParam
               offsetParam)
       (matching d (Sql.whereCategoryType category t)) (getLimit limitParam)
       (getOffset offsetParam)).
Proof.
  intros Hpool. split; [|split].
  - now apply allOfType_page.
  - intros q searchQuery Hq. now apply searchOfType_page.
  - intros categoryParam category Hc. now apply byCategory_page.
Qed.

Lemma paginated_handlers_return_the_page_witness :
  Sql.pool sample_db = true /\
  pageOf (Media.allImages sample_db (QString "2") (QString "2")) 3 2 2 /\
  pageOf (Media.searchImage sample_db (QString "DRAGON") (QString "150")
            (QString "0")) 1 100 0 /\
  pageOf (Media.imagesByCategory sample_db "Dragon Ball" (QString "2")
            (QString "2")) 1 2 2.
Proof.
  assert (Hpool : Sql.pool sample_db = true) by reflexivity.
  destruct (paginated_handlers_return_the_page "image" "No images available"
              sample_db (QString "2") (QString "2") Hpool) as (Hall & _ & _).
  destruct (paginated_handlers_return_the_page "image" "No images found"
              sample_db (QString "150") (QString "0") Hpool)
    as (_ & Hsearch & _).
  destruct (paginated_handlers_return_the_page "image"
              "No images in this category" sample_db (QString "2")
              (QString "2") Hpool) as (_ & _ & Hcat).
  split; [exact Hpool|]. split; [exact Hall|]. split.
  - exact (Hsearch (QString "DRAGON") "DRAGON" eq_refl).
  - exact (Hcat "Dragon Ball" "dragon_ball" eq_refl).
Defined.

(** ** Search *)

Section Search.

Import Sql Media.

(** The answer of a search handler, in full. *)
Lemma searchOfType_response (t noneMsg : string) (d : Db)
  (q limitParam offsetParam : QueryValue) (searchQuery : string) :
  pool d = true ->
  validateSearchQuery q = Ok searchQuery ->
  let w := whereSearch t (searchPatternOf searchQuery) in
  let limit := Z.min (getLimit limitParam) 100 in
  let page := limitOffset limit (getOffset offsetParam)
                (orderByDesc views (filter w (media d))) in
  searchOfType t noneMsg d q limitParam offsetParam
  = if rowsLength page =? 0
    then mkResponse 404 (EmptySearchBody noneMsg searchQuery 0 [])
    else mkResponse 200
           (SearchBody searchQuery (matching d w) (rowsLength page) limit
              (getOffset offsetParam) page).
Proof.
  intros Hpool Hq w limit page.
  unfold searchOfType. rewrite Hq. cbn [bindExc].
  fold (searchPatternOf searchQuery). unfold SEARCH_LIMIT.
  rewrite selectPage_connected by assumption. cbn [bindExc].
  fold w limit page.
  destruct (rowsLength page =? 0); [reflexivity|].
  rewrite selectCount_connected by assumption. cbn [bindExc catchSearch].
  rewrite parseTotal_natToString. reflexivity.
Qed.

End Search.

(** C7, as stated, fails on the total: one visible image matches
    ["dragon"], and a search from offset 5 answers 404 with [total: 0]. *)
Lemma search_reports_total_counterexample :
  Sql.pool sample_db = true /\
  validateSearchQuery (QString "dragon") = Ok "dragon" /\
  matching sample_db (Sql.whereSearch "image" (searchPatternOf "dragon")) = 1 /\
  Media.status
    (Media.searchImage sample_db (QString "dragon") QUndefined (QString "5"))
  = 404 /\
  Media.totalOf
    (Media.body
       (Media.searchImage sample_db (QString "dragon") QUndefined
          (QString "5")))
  = Some 0 /\
  Media.totalOf
    (Media.body
       (Media.searchImage sample_db (QString "dragon") QUndefined
          (QString "5")))
  <> Some (matching sample_db
             (Sql.whereSearch "image" (searchPatternOf "dragon"))).
Proof. repeat split. discriminate. Qed.

(** C7, amended: for every search with a valid query, while the database
    answers, the page holds at most 100 rows and the limit in use is the
    effective limit capped at 100 (a requested limit between 101 and 200
    gives 100); a non-empty page is answered with 200, the capped limit and
    the number of rows that match the query as [total]; an empty page is
    answered with 404 and [total] 0. *)
Theorem search_page_capped_and_counted
  (t noneMsg : string) (d : Sql.Db) (q limitParam offsetParam : QueryValue)
  (searchQuery : string) :
  Sql.pool d = true ->
  validateSearchQuery q = Ok searchQuery ->
  let r := Media.searchOfType t noneMsg d q limitParam offsetParam in
  let total := matching d (Sql.whereSearch t (searchPatternOf searchQuery)) in
  Media.rowsLength (Media.resultsOf (Media.body r)) <= 100 /\
  (forall n : nat,
     (101 <= n <= 200)%nat -> limitParam = QString (Js.natToString n) ->
     getLimit limitParam = Z.of_nat n /\
     Z.min (getLimit limitParam) SEARCH_LIMIT = 100) /\
  (getOffset offsetParam < total ->
   Media.status r = 200 /\
   Media.totalOf (Media.body r) = Some total /\
   Media.limitOf (Media.body r)
     = Some (Z.min (getLimit limitParam) SEARCH_LIMIT)) /\
  (total <= getOffset offsetParam ->
   Media.status r = 404 /\
   Media.totalOf (Media.body r) = Some 0 /\
   Media.resultsOf (Media.body r) = []).
Proof.
  intros Hpool Hq r total.
  destruct (searchOfType_page t noneMsg d q limitParam offsetParam
              searchQuery Hpool Hq) as (Hlen & Hbeyond & Hwithin).
  fold r total in Hlen, Hbeyond, Hwithin.
  pose proof (searchOfType_response t noneMsg d q limitParam offsetParam
                searchQuery Hpool Hq) as Hr.
  cbv zeta in Hr. fold r total in Hr.
  split; [lia|]. split; [|split].
  - intros n Hn ->. unfold getLimit, queryToString, SEARCH_LIMIT.
    rewrite parseInt_natToString. unfold Js.orDefault, DEFAULT_LIMIT, MAX_LIMIT.
    destruct (Z.of_nat n =? 0) eqn:E; [apply Z.eqb_eq in E; lia|]. lia.
  - intros Hlt. specialize (Hwithin Hlt).
    destruct (Media.rowsLength _ =? 0) in Hr; rewrite Hr in *.
    + discriminate Hwithin.
    + repeat split.
  - intros Hle. destruct (Hbeyond Hle) as [Hst Hres].
    destruct (Media.rowsLength _ =? 0) in Hr; rewrite Hr in *.
    + repeat split.
    + discriminate Hst.
Qed.

Lemma search_page_capped_and_counted_witness :
  Sql.pool sample_db = true /\
  validateSearchQuery (QString " Dragon ") = Ok "Dragon" /\
  Media.status
    (Media.searchGif sample_db (QString " Dragon ") (QString "150")
       QUndefined) = 200 /\
  Media.totalOf
    (Media.body
       (Media.searchGif sample_db (QString " Dragon ") (QString "150")
          QUndefined)) = Some 1 /\
  Media.limitOf
    (Media.body
       (Media.searchGif sample_db (QString " Dragon ") (QString "150")
          QUndefined)) = Some 100.
Proof.
  assert (Hpool : Sql.pool sample_db = true) by reflexivity.
  assert (Hq : validateSearchQuery (QString " Dragon ") = Ok "Dragon")
    by reflexivity.
  destruct (search_page_capped_and_counted "gif" "No gifs found" sample_db
              (QString " Dragon ") (QString "150") QUndefined "Dragon"
              Hpool Hq) as (_ & _ & Hwithin & _).
  split; [exact Hpool|]. split; [exact Hq|].
  apply Hwithin. reflexivity.
Defined.

(** ** Lookup by id *)

Section ById.

Import Js Sql Media.

Lemma digitIn_decimal (c : ascii) :
  isDecimalDigit c = true ->
  exists v, digitIn 10 c = Some v /\ 0 <= v /\
            (Ascii.eqb c "0" = false -> 1 <= v).
Proof.
  destruct c as [[|] [|] [|] [|] [|] [|] [|] [|]]; intros H;
    try discriminate H;
    (eexists; split; [vm_compute; reflexivity|]; split;
     [lia | intros E; try discriminate E; lia]).
Qed.

(** A numeral is read to its end, and digits only add. *)
Lemma readDigits_allDigits (s : string) :
  forall acc,
    allDigits s = true -> 0 <= acc ->
    exists v, readDigits 10 s acc true = Some v /\ acc <= v /\
              (someNonZero s = true -> 1 <= v).
Proof.
  induction s as [|c s IH]; intros acc Hd Hacc; simpl in *.
  - exists acc. repeat split; try lia; discriminate.
  - apply andb_true_iff in Hd. destruct Hd as [Hc Hs].
    destruct (digitIn_decimal c Hc) as (dv & -> & Hdv & Hnz).
    destruct (IH (acc * 10 + dv) Hs ltac:(lia)) as (v & -> & Hv & Hrest).
    exists v. repeat split; try lia.
    intros Hsome. apply orb_true_iff in Hsome. destruct Hsome as [Hc0|Hs0].
    + apply negb_true_iff in Hc0. specialize (Hnz Hc0). lia.
    + auto.
Qed.

(** A numeral has no white space, sign or hexadecimal prefix to strip. *)
Lemma parseInt_allDigits (s : string) :
  allDigits s = true ->
  parseInt s = match readDigits 10 s 0 false with
               | Some v => Some (1 * v)
               | None => None
               end.
Proof.
  destruct s as [|c s]; [reflexivity|].
  destruct c as [[|] [|] [|] [|] [|] [|] [|] [|]]; intros H;
    try discriminate H; try reflexivity.
  destruct s as [|c2 s]; [reflexivity|].
  destruct c2 as [[|] [|] [|] [|] [|] [|] [|] [|]];
    try discriminate H; reflexivity.
Qed.

Lemma parseInt_positive (s : string) :
  isPositiveIntegerText s = true ->
  exists n, parseInt s = Some n /\ 1 <= n.
Proof.
  unfold isPositiveIntegerText. intros H.
  apply andb_true_iff in H. destruct H as [Hd Hnz].
  rewrite (parseInt_allDigits s Hd).
  destruct s as [|c s]; [discriminate Hnz|].
  simpl in Hd. apply andb_true_iff in Hd. destruct Hd as [Hc Hs].
  cbn [readDigits].
  destruct (digitIn_decimal c Hc) as (dv & -> & Hdv & Hc0).
  destruct (readDigits_allDigits s (0 * 10 + dv) Hs ltac:(lia))
    as (v & -> & Hv & Hrest).
  exists (1 * v). split; [reflexivity|].
  simpl in Hnz. apply orb_true_iff in Hnz. destruct Hnz as [Hn|Hn].
  - apply negb_true_iff in Hn. specialize (Hc0 Hn). lia.
  - specialize (Hrest Hn). lia.
Qed.

Lemma selectWhere_connected (d : Db) (w : MediaRow -> bool) :
  pool d = true -> selectWhere d w = Ok (filter w (media d)).
Proof. intros H. unfold selectWhere, getConnection. now rewrite H. Qed.

Lemma whereIdType_true (n : Z) (t : string) (row : MediaRow) :
  whereIdType n t row = true <->
  id row = n /\ visible row = true /\ media_type row = t.
Proof.
  unfold whereIdType. rewrite !andb_true_iff, Z.eqb_eq, String.eqb_eq.
  tauto.
Qed.

End ById.

(** C8, as stated, fails: ["12abc"] is not a positive integer, and the
    lookup reads it as 12 and answers 200 with the row of that id. *)
Lemma by_id_rejects_exactly_non_integers_counterexample :
  isPositiveIntegerText "12abc" = false /\
  Js.parseInt "12abc" = Some 12 /\
  Media.status (fst (Media.gifById sample_db "12abc")) = 200 /\
  Media.status (fst (Media.gifById sample_db "12abc")) <> 400.
Proof. repeat split. discriminate. Qed.

(** C8, amended: a lookup by id answers 400 exactly when [parseInt] finds no
    integer at the start of the parameter (after white space and a sign;
    what follows the digits is ignored) or finds one below 1; every
    positive decimal numeral is accepted; an accepted id [n], while the
    database answers, is answered with a visible row of the requested type
    whose id is [n] when the table has one, and with 404 when it has
    none. *)
Theorem by_id_rejects_and_fetches
  (t notFoundMsg : string) (d : Sql.Db) (media_id : string) :
  let r := fst (Media.byId t notFoundMsg d media_id) in
  (Media.status r = 400 <->
   forall n, Js.parseInt media_id = Some n -> n < 1) /\
  (isPositiveIntegerText media_id = true -> Media.status r <> 400) /\
  (forall n,
     Js.parseInt media_id = Some n -> 1 <= n -> Sql.pool d = true ->
     match filter (Sql.whereIdType n t) (Sql.media d) with
     | [] => r = Media.mkResponse 404 (Media.ErrorBody notFoundMsg)
     | row :: _ =>
         r = Media.mkResponse 200 (Media.RowBody row) /\
         Sql.id row = n /\ Sql.visible row = true /\
         Sql.media_type row = t /\ In row (Sql.media d)
     end).
Proof.
  intros r.
  assert (Hstatus : Media.status r = 400 <->
                    forall n, Js.parseInt media_id = Some n -> n < 1).
  { subst r. unfold Media.byId, Media.invalidId.
    destruct (Js.parseInt media_id) as [n|]; cbn [fst].
    - destruct (n <? 1) eqn:E; cbn [fst Media.status].
      + apply Z.ltb_lt in E. split; [|reflexivity].
        intros _ m [= <-]. exact E.
      + apply Z.ltb_ge in E. split.
        * destruct (Sql.selectWhere d (Sql.whereIdType n t)) as [[|row rows]|msg];
            cbn; discriminate.
        * intros H. specialize (H n eq_refl). lia.
    - cbn. split; [|reflexivity]. intros _ n H. discriminate H. }
  split; [exact Hstatus|]. split.
  - intros Hpos Hst. destruct (parseInt_positive media_id Hpos) as (n & Hn & Hge).
    pose proof (proj1 Hstatus Hst n Hn). lia.
  - intros n Hn Hge Hpool. subst r. unfold Media.byId, Media.invalidId.
    rewrite Hn. destruct (n <? 1) eqn:E; [apply Z.ltb_lt in E; lia|].
    rewrite selectWhere_connected by assumption.
    destruct (filter (Sql.whereIdType n t) (Sql.media d)) as [|row rows] eqn:F.
    + reflexivity.
    + assert (Hin : In row (filter (Sql.whereIdType n t) (Sql.media d)))
        by (rewrite F; left; reflexivity).
      apply filter_In in Hin. destruct Hin as [Hin Hw].
      apply whereIdType_true in Hw. destruct Hw as (Hid & Hvis & Hty).
      cbn [fst]. repeat split; assumption.
Qed.

Lemma by_id_rejects_and_fetches_witness :
  isPositiveIntegerText "12" = true /\
  Media.status (fst (Media.gifById sample_db "12")) <> 400 /\
  fst (Media.gifById sample_db "12")
  = Media.mkResponse 200
      (Media.RowBody
         (Sql.mkRow 12 "Dancing dragon" "dragon_ball" "https://cdn/12" "gif" 7
            true 50 50)) /\
  fst (Media.imageById sample_db "12")
  = Media.mkResponse 404 (Media.ErrorBody "Image not found").
Proof.
  destruct (by_id_rejects_and_fetches "gif" "GIF not found" sample_db "12")
    as (_ & Hpos & Hgif).
  destruct (by_id_rejects_and_fetches "image" "Image not found" sample_db
              "12") as (_ & _ & Himg).
  split; [reflexivity|]. split; [apply Hpos; reflexivity|]. split.
  - exact (proj1 (Hgif 12 eq_refl ltac:(lia) eq_refl)).
  - exact (Himg 12 eq_refl ltac:(lia) eq_refl).
Defined.

(** ** Random selection *)

Section Random.

Import Sql Media.

(** The draw returns at most one row, and only a row the filter selects. *)
Lemma selectRandom_rows (d : Db) (w : MediaRow -> bool) (rnd : nat)
  (rows : list MediaRow) :
  selectRandom d w rnd = Ok rows ->
  forall row, In row rows -> In row (media d) /\ w row = true.
Proof.
  unfold selectRandom, getConnection.
  destruct (pool d); cbn [negb bindExc]; [|discriminate].
  destruct (nth_error _ _) as [picked|] eqn:E; intros [= <-] row Hin;
    [|contradiction].
  destruct Hin as [<-|[]].
  apply nth_error_In in E. now apply filter_In in E.
Qed.

(** The draw returns a row whenever the filter selects one. *)
Lemma selectRandom_some (d : Db) (w : MediaRow -> bool) (rnd : nat)
  (row : MediaRow) :
  pool d = true -> In row (media d) -> w row = true ->
  exists picked, selectRandom d w rnd = Ok [picked].
Proof.
  intros Hpool Hin Hw. unfold selectRandom, getConnection.
  rewrite Hpool. cbn [negb bindExc].
  assert (Hne : List.length (filter w (media d)) <> 0%nat).
  { assert (In row (filter w (media d))) as H by (apply filter_In; auto).
    destruct (filter w (media d)); [contradiction | discriminate]. }
  destruct (nth_error _ _) as [picked|] eqn:E; [now exists picked|].
  apply nth_error_None in E.
  pose proof (Nat.mod_upper_bound rnd _ Hne). lia.
Qed.

Lemma randomWhere_row (w : MediaRow -> bool) (noneMsg : string) (d : Db)
  (rnd : nat) (row : MediaRow) :
  rowOf (body (randomWhere w noneMsg d rnd)) = Some row ->
  In row (media d) /\ w row = true.
Proof.
  unfold randomWhere.
  destruct (selectRandom d w rnd) as [rows|msg] eqn:E; cbn; [|discriminate].
  destruct rows as [|picked rest]; cbn; [discriminate|].
  intros [= <-]. apply (selectRandom_rows d w rnd _ E). now left.
Qed.

Lemma randomInCategory_row (t noneMsg : string) (d : Db)
  (categoryParam : string) (rnd : nat) (row : MediaRow) :
  rowOf (body (randomInCategory t noneMsg d categoryParam rnd)) = Some row ->
  exists category,
    Auth.validateCategory categoryParam = Ok category /\
    In row (media d) /\ whereCategoryType category t row = true.
Proof.
  unfold randomInCategory.
  destruct (Auth.validateCategory categoryParam) as [category|msg];
    cbn [bindExc catchCategory].
  - destruct (selectRandom d _ rnd) as [rows|msg] eqn:E; cbn.
    + destruct rows as [|picked rest]; cbn; [discriminate|].
      intros [= <-]. exists category. split; [reflexivity|].
      apply (selectRandom_rows d _ rnd _ E). now left.
    + destruct (Js.startsWith msg "Invalid category"); discriminate.
  - destruct (Js.startsWith msg "Invalid category"); discriminate.
Qed.

Lemma whereType_true (t : string) (row : MediaRow) :
  whereType t row = true <-> media_type row = t /\ visible row = true.
Proof.
  unfold whereType. now rewrite andb_true_iff, String.eqb_eq.
Qed.

Lemma whereCategoryType_true (c t : string) (row : MediaRow) :
  whereCategoryType c t row = true <->
  category row = c /\ media_type row = t /\ visible row = true.
Proof.
  unfold whereCategoryType. rewrite !andb_true_iff, !String.eqb_eq. tauto.
Qed.

End Random.

(** C9: whatever the table and the draw, a row that a random endpoint
    returns is a visible row of the table; [/random/image] and
    [/random/gif] and their category variants return a row of the type
    they are named after (the category variants, one of the validated
    category); and while the database answers, a typed endpoint does
    return a row when the table has a visible row of its type. *)
Theorem random_rows_visible_and_typed (d : Sql.Db) (rnd : nat) :
  (forall row,
     Media.rowOf (Media.body (Media.random d rnd)) = Some row ->
     Sql.visible row = true /\ In row (Sql.media d)) /\
  (forall row,
     Media.rowOf (Media.body (Media.randomImage d rnd)) = Some row ->
     Sql.visible row = true /\ Sql.media_type row = "image"
     /\ In row (Sql.media d)) /\
  (forall row,
     Media.rowOf (Media.body (Media.randomGif d rnd)) = Some row ->
     Sql.visible row = true /\ Sql.media_type row = "gif"
     /\ In row (Sql.media d)) /\
  (forall categoryParam row,
     Media.rowOf
       (Media.body (Media.randomImageByCategory d categoryParam rnd))
     = Some row ->
     Sql.visible row = true /\ Sql.media_type row = "image" /\
     Auth.validateCategory categoryParam = Ok (Sql.category row)) /\
  (forall categoryParam row,
     Media.rowOf (Media.body (Media.randomGifByCategory d categoryParam rnd))
     = Some row ->
     Sql.visible row = true /\ Sql.media_type row = "gif" /\
     Auth.validateCategory categoryParam = Ok (Sql.category row)) /\
  (forall t noneMsg row,
     Sql.pool d = true -> In row (Sql.media d) ->
     Sql.media_type row = t -> Sql.visible row = true ->
     exists picked,
       Media.randomWhere (Sql.whereType t) noneMsg d rnd
       = Media.mkResponse 200 (Media.RowBody picked)).
Proof.
  repeat apply conj.
  - intros row H. apply randomWhere_row in H. destruct H as [Hin Hw].
    split; assumption.
  - intros row H. apply randomWhere_row in H. destruct H as [Hin Hw].
    apply whereType_true in Hw. tauto.
  - intros row H. apply randomWhere_row in H. destruct H as [Hin Hw].
    apply whereType_true in Hw. tauto.
  - intros c row H. apply randomInCategory_row in H.
    destruct H as (category & Hc & Hin & Hw).
    apply whereCategoryType_true in Hw. destruct Hw as (<- & Ht & Hv).
    tauto.
  - intros c row H. apply randomInCategory_row in H.
    destruct H as (category & Hc & Hin & Hw).
    apply whereCategoryType_true in Hw. destruct Hw as (<- & Ht & Hv).
    tauto.
  - intros t noneMsg row Hpool Hin Ht Hv.
    destruct (selectRandom_some d (Sql.whereType t) rnd row Hpool Hin)
      as (picked & Hp); [apply whereType_true; tauto|].
    exists picked. unfold Media.randomWhere. rewrite Hp. reflexivity.
Qed.

Lemma random_rows_visible_and_typed_witness :
  Media.randomGif sample_db 3
  = Media.mkResponse 200
      (Media.RowBody
         (Sql.mkRow 12 "Dancing dragon" "dragon_ball" "https://cdn/12" "gif" 7
            true 50 50)) /\
  Sql.visible
    (Sql.mkRow 12 "Dancing dragon" "dragon_ball" "https://cdn/12" "gif" 7
       true 50 50) = true /\
  Sql.media_type
    (Sql.mkRow 12 "Dancing dragon" "dragon_ball" "https://cdn/12" "gif" 7
       true 50 50) = "gif" /\
  In (Sql.mkRow 12 "Dancing dragon" "dragon_ball" "https://cdn/12" "gif" 7
        true 50 50) (Sql.media sample_db).
Proof.
  destruct (random_rows_visible_and_typed sample_db 3)
    as (_ & _ & Hgif & _).
  split; [reflexivity|]. apply Hgif. reflexivity.
Defined.

(** ** Bulk upload *)

(** C3: when one title is supplied for [n > 1] files, the normalized titles
    are the [n] texts [title ++ " " ++ i] for [i] from 1 to [n], the
    suffix being the decimal numeral of [i]; when one category is
    supplied, the normalized categories are that category [n] times. *)
Theorem single_title_and_category_replicated
  (title category : string) (n : nat) :
  (1 < n)%nat ->
  Admin.normalizeTitles [title] n
  = map (fun i => title ++ " " ++ Js.natToString i) (seq 1 n) /\
  List.length (Admin.normalizeTitles [title] n) = n /\
  (forall i, (i < n)%nat ->
     nth_error (Admin.normalizeTitles [title] n) i
     = Some (title ++ " " ++ Js.natToString (i + 1)) /\
     Js.parseInt (Js.natToString (i + 1)) = Some (Z.of_nat i + 1)) /\
  Admin.normalizeCategories [category] n = repeat category n /\
  List.length (Admin.normalizeCategories [category] n) = n /\
  (forall i, (i < n)%nat ->
     nth_error (Admin.normalizeCategories [category] n) i = Some category).
Proof.
  intros Hn.
  assert (Hlt : (1 <? n)%nat = true) by now apply Nat.ltb_lt.
  unfold Admin.normalizeTitles, Admin.normalizeCategories.
  rewrite Hlt. unfold Admin.replicateTitle, Admin.replicateCategory.
  repeat apply conj.
  - rewrite <- seq_shift, map_map. apply map_ext. intros i.
    now rewrite Nat.add_1_r.
  - now rewrite length_map, length_seq.
  - intros i Hi. split.
    + rewrite nth_error_map, nth_error_seq.
      destruct (Nat.ltb_spec i n); [reflexivity | lia].
    + rewrite parseInt_natToString. f_equal. lia.
  - reflexivity.
  - apply repeat_length.
  - intros i Hi. apply nth_error_repeat. exact Hi.
Qed.

Lemma single_title_and_category_replicated_witness :
  (1 < 3)%nat /\
  Admin.normalizeTitles ["Sunset"] 3 = ["Sunset 1"; "Sunset 2"; "Sunset 3"] /\
  Admin.normalizeCategories ["nature"] 3 = ["nature"; "nature"; "nature"].
Proof.
  assert (H : (1 < 3)%nat) by lia.
  destruct (single_title_and_category_replicated "Sunset" "nature" 3 H)
    as (Ht & _ & _ & Hc & _).
  split; [exact H|]. split; [exact Ht | exact Hc].
Defined.

Section BulkUploadProperties.

Import Sql Admin.

Local Open Scope list_scope.

Variable JSON_parse_array : string -> option (list string).
Variable upload_stream : nat -> UploadParams -> UploadFile -> CdnOutcome.
Variable insert_fault : nat -> option string.
Variable clock : nat -> Z.

Local Abbreviation processFile := (processFile upload_stream insert_fault clock).
Local Abbreviation step := (step upload_stream insert_fault clock).
Local Abbreviation loop := (loop upload_stream insert_fault clock).
Local Abbreviation fileOutcomes := (fileOutcomes upload_stream insert_fault clock).
Local Abbreviation bulkUpload :=
  (bulkUpload JSON_parse_array upload_stream insert_fault clock).

Lemma uploadedOf_app (xs ys : list Outcome) :
  uploadedOf (xs ++ ys) = uploadedOf xs ++ uploadedOf ys.
Proof.
  induction xs as [|[item|e] xs IH]; simpl; [reflexivity | | exact IH].
  now rewrite IH.
Qed.

Lemma length_outcomes (os : list Outcome) :
  (List.length (uploadedOf os) + List.length (errorsOf os))%nat
  = List.length os.
Proof.
  induction os as [|[item|e] os IH]; simpl; [reflexivity | | ]; lia.
Qed.

Lemma length_fileOutcomes (files : list UploadFile)
  (titles categories : list string) (media_type : string) :
  forall idx d,
    List.length (fileOutcomes idx files titles categories media_type d)
    = List.length files.
Proof.
  induction files as [|file rest IH]; intros idx d; simpl; [reflexivity|].
  destruct (processFile idx file titles categories media_type d)
    as [[item d']|msg]; simpl; now rewrite IH.
Qed.

(** The outcome at position [i] is an item or an error of file [i]. *)
Lemma fileOutcomes_nth (files : list UploadFile)
  (titles categories : list string) (media_type : string) :
  forall idx d i file,
    nth_error files i = Some file ->
    exists o,
      nth_error (fileOutcomes idx files titles categories media_type d) i
      = Some o /\ outcomeOfFile (idx + i) file o.
Proof.
  induction files as [|f rest IH]; intros idx d i file Hi.
  - destruct i; discriminate Hi.
  - simpl.
    destruct (processFile idx f titles categories media_type d)
      as [[item d']|msg] eqn:E; destruct i as [|i]; simpl in Hi |- *.
    + injection Hi as <-. eexists. split; [reflexivity|]. simpl.
      unfold Admin.processFile in E.
      destruct (String.eqb _ ""); [discriminate E|].
      destruct (Auth.validateCategory _); [|discriminate E].
      cbn [bindExc] in E.
      destruct (upload_stream _ _ _) as [m|[[|c u]|]]; try discriminate E.
      destruct (insertMedia _ _ _ _ _ _ _ _ _) as [[row d2]|m];
        [|discriminate E].
      cbn [bindExc] in E. injection E as <- _. reflexivity.
    + destruct (IH (S idx) d' i file Hi) as (o & Ho & Hof).
      exists o. split; [exact Ho|]. now rewrite <- Nat.add_succ_comm.
    + injection Hi as <-. eexists. split; [reflexivity|]. simpl.
      split; [reflexivity | lia].
    + destruct (IH (S idx) d i file Hi) as (o & Ho & Hof).
      exists o. split; [exact Ho|]. now rewrite <- Nat.add_succ_comm.
Qed.

(** The loop appends the outcomes to its accumulators, in order, and
    counts them. *)
Lemma loop_outcomes (files : list UploadFile)
  (titles categories : list string) (media_type : string) :
  forall idx st,
    let os := fileOutcomes idx files titles categories media_type (db st) in
    let st' := loop idx files titles categories media_type st in
    uploadedMedia st' = uploadedMedia st ++ uploadedOf os /\
    errors st' = errors st ++ errorsOf os /\
    successCount st'
    = successCount st + Z.of_nat (List.length (uploadedOf os)) /\
    failedCount st' = failedCount st + Z.of_nat (List.length (errorsOf os)).
Proof.
  induction files as [|file rest IH]; intros idx st; cbn zeta.
  - simpl. rewrite !app_nil_r. repeat split; lia.
  - cbn [Admin.loop Admin.fileOutcomes]. unfold Admin.step.
    destruct (processFile idx file titles categories media_type (db st))
      as [[item d']|msg];
      match goal with
      | |- context [loop (S idx) rest _ _ _ ?s] =>
          specialize (IH (S idx) s); cbn zeta in IH;
          destruct IH as (Hu & He & Hs & Hf)
      end;
      rewrite Hu, He, Hs, Hf; cbn [uploadedMedia errors successCount
                                     failedCount db uploadedOf errorsOf];
      rewrite <- ?app_assoc; cbn [List.length app];
      repeat split; lia.
Qed.

(** The answer of the handler to a batch that passes the checks made
    before the loop. *)
Lemma bulkUpload_valid (cloud_name : string) (files : list UploadFile)
  (titlesField categoriesField media_typeField : BodyField) (d : Db)
  (media_type : string) :
  let nfiles := List.length files in
  let titles :=
    normalizeTitles (normalizeArrayField JSON_parse_array titlesField)
      nfiles in
  let categories :=
    normalizeCategories
      (normalizeArrayField JSON_parse_array categoriesField) nfiles in
  cloud_name <> "" ->
  files <> [] ->
  List.length titles = nfiles ->
  List.length categories = nfiles ->
  validMediaType media_typeField = Some media_type ->
  bulkUpload (Some cloud_name) files titlesField categoriesField
    media_typeField d
  = let st := loop 0 files titles categories media_type
                (mkLoop [] [] 0 0 d) in
    (mkAdminResponse 200
       (BulkUploadResponse (successCount st) (failedCount st)
          (uploadedMedia st) (errors st)),
     db st).
Proof.
  intros nfiles titles categories Hcloud Hfiles Ht Hc Hm.
  unfold Admin.bulkUpload.
  destruct cloud_name as [|c0 cn]; [contradiction|].
  fold nfiles. fold titles. fold categories.
  assert (Hn : (nfiles =? 0)%nat = false).
  { apply Nat.eqb_neq. subst nfiles. destruct files; [contradiction|].
    discriminate. }
  rewrite Hn, Ht, Hc, Nat.eqb_refl, Hm. reflexivity.
Qed.

(** C4: a batch that passes the checks made before the loop is answered
    with 200 whatever happens to its files; the answer lists, in order, the
    items of the files that were stored and the errors of the others; the
    two counts are the lengths of the two lists and add up to the number of
    files; the outcome of file [i] is an item with its name, or an error
    with its name, the index [i] and the message thrown; and every file
    has an outcome, whether or not an earlier file failed. *)
Theorem bulk_upload_isolates_failures
  (cloud_name : string) (files : list UploadFile)
  (titlesField categoriesField media_typeField : BodyField) (d : Db)
  (media_type : string) :
  let nfiles := List.length files in
  let titles :=
    normalizeTitles (normalizeArrayField JSON_parse_array titlesField)
      nfiles in
  let categories :=
    normalizeCategories
      (normalizeArrayField JSON_parse_array categoriesField) nfiles in
  cloud_name <> "" ->
  files <> [] ->
  List.length titles = nfiles ->
  List.length categories = nfiles ->
  validMediaType media_typeField = Some media_type ->
  let os := fileOutcomes 0 files titles categories media_type d in
  let success := Z.of_nat (List.length (uploadedOf os)) in
  let failed := Z.of_nat (List.length (errorsOf os)) in
  fst (bulkUpload (Some cloud_name) files titlesField categoriesField
         media_typeField d)
  = mkAdminResponse 200
      (BulkUploadResponse success failed (uploadedOf os) (errorsOf os)) /\
  success + failed = Z.of_nat nfiles /\
  List.length os = nfiles /\
  (forall i file,
     nth_error files i = Some file ->
     exists o, nth_error os i = Some o /\ outcomeOfFile i file o).
Proof.
  intros nfiles titles categories Hcloud Hfiles Ht Hc Hm os success failed.
  rewrite (bulkUpload_valid cloud_name files titlesField categoriesField
             media_typeField d media_type Hcloud Hfiles Ht Hc Hm).
  fold nfiles titles categories. cbn [fst].
  destruct (loop_outcomes files titles categories media_type 0
              (mkLoop [] [] 0 0 d)) as (Hu & He & Hs & Hf).
  cbn [db uploadedMedia errors successCount failedCount app] in Hu, He, Hs, Hf.
  fold os in Hu, He, Hs, Hf. rewrite Hu, He, Hs, Hf.
  pose proof (length_outcomes os) as Hlen.
  pose proof (length_fileOutcomes files titles categories media_type 0 d)
    as Hos.
  fold os in Hos. fold nfiles in Hos.
  repeat apply conj.
  - reflexivity.
  - subst success failed. lia.
  - exact Hos.
  - intros i file Hi.
    apply (fileOutcomes_nth files titles categories media_type 0 d i file Hi).
Qed.

(** What a stored file adds: an item whose record has no view and is
    visible, and one such row at the end of the table. *)
Lemma processFile_fresh (idx : nat) (file : UploadFile)
  (titles categories : list string) (media_type : string) (d d' : Db)
  (item : UploadedMediaItem) :
  processFile idx file titles categories media_type d = Ok (item, d') ->
  freshRecord (item_media item) /\
  exists row, media d' = media d ++ [row] /\ freshRow row.
Proof.
  unfold Admin.processFile.
  destruct (String.eqb _ ""); [discriminate|].
  destruct (Auth.validateCategory _) as [category|]; [|discriminate].
  cbn [bindExc].
  destruct (upload_stream _ _ _) as [m|[[|c u]|]]; try discriminate.
  unfold insertMedia, getConnection.
  destruct (pool d); cbn [negb bindExc]; [|discriminate].
  destruct (insert_fault idx); [discriminate|].
  cbn [bindExc]. intros [= <- <-]. cbn.
  split; [split; reflexivity|].
  eexists. split; [reflexivity|]. split; reflexivity.
Qed.

Lemma loop_fresh (files : list UploadFile)
  (titles categories : list string) (media_type : string) :
  forall idx st,
    let st' := loop idx files titles categories media_type st in
    exists items added,
      uploadedMedia st' = uploadedMedia st ++ items /\
      Forall (fun item => freshRecord (item_media item)) items /\
      media (db st') = media (db st) ++ added /\
      Forall freshRow added /\
      List.length added = List.length items.
Proof.
  induction files as [|file rest IH]; intros idx st; cbn zeta.
  - exists [], []. simpl. rewrite !app_nil_r. repeat split; constructor.
  - cbn [Admin.loop]. unfold Admin.step.
    destruct (processFile idx file titles categories media_type (db st))
      as [[item d']|msg] eqn:E.
    + destruct (processFile_fresh _ _ _ _ _ _ _ _ E)
        as (Hitem & row & Hmedia & Hrow).
      destruct (IH (S idx)
                  (mkLoop (uploadedMedia st ++ [item]) (errors st)
                     (successCount st + 1) (failedCount st) d'))
        as (items & added & Hu & Hfi & Hm & Hfa & Hlen).
      cbn [uploadedMedia db] in Hu, Hm.
      exists (item :: items), (row :: added).
      rewrite Hu, Hm, Hmedia, <- !app_assoc. simpl.
      repeat split; try (constructor; assumption). now rewrite Hlen.
    + destruct (IH (S idx)
                  (mkLoop (uploadedMedia st)
                     (errors st ++ [mkError (originalname file) idx msg])
                     (successCount st) (failedCount st + 1) (db st)))
        as (items & added & Hu & Hfi & Hm & Hfa & Hlen).
      cbn [uploadedMedia db] in Hu, Hm.
      exists items, added. repeat split; assumption.
Qed.

(** C10: every item that a bulk upload answers with holds a record with
    [views = 0] and [visible = true], and the rows the upload adds to the
    table, one per item, have [views = 0] and [visible = true], whatever
    the defaults of the two columns are: the [INSERT] gives both values
    itself. *)
Theorem bulk_upload_rows_fresh
  (cloud_name : option string) (files : list UploadFile)
  (titlesField categoriesField media_typeField : BodyField) (d : Db) :
  let result :=
    bulkUpload cloud_name files titlesField categoriesField media_typeField
      d in
  Forall (fun item => freshRecord (item_media item))
    (uploadedMediaOf (body (fst result))) /\
  exists added,
    media (snd result) = media d ++ added /\
    Forall freshRow added /\
    List.length added = List.length (uploadedMediaOf (body (fst result))).
Proof.
  assert (Hnone : forall (st : Z) (b : AdminBody),
             uploadedMediaOf b = [] ->
             Forall (fun item => freshRecord (item_media item))
               (uploadedMediaOf (body (fst (mkAdminResponse st b, d)))) /\
             exists added,
               media (snd (mkAdminResponse st b, d)) = media d ++ added /\
               Forall freshRow added /\
               List.length added
               = List.length
                   (uploadedMediaOf (body (fst (mkAdminResponse st b, d))))).
  { intros st b Hb. cbn [fst snd body]. rewrite Hb.
    split; [constructor|]. exists []. rewrite app_nil_r.
    repeat split. constructor. }
  cbn zeta. unfold Admin.bulkUpload.
  destruct cloud_name as [[|c0 cn]|]; try (apply Hnone; reflexivity).
  destruct (List.length files =? 0)%nat; [apply Hnone; reflexivity|].
  destruct (negb (List.length (normalizeTitles _ _) =? _)%nat);
    [apply Hnone; reflexivity|].
  destruct (negb (List.length (normalizeCategories _ _) =? _)%nat);
    [apply Hnone; reflexivity|].
  destruct (validMediaType media_typeField) as [media_type|];
    [|apply Hnone; reflexivity].
  cbn [fst snd body uploadedMediaOf].
  destruct (loop_fresh files
              (normalizeTitles
                 (normalizeArrayField JSON_parse_array titlesField)
                 (List.length files))
              (normalizeCategories
                 (normalizeArrayField JSON_parse_array categoriesField)
                 (List.length files))
              media_type 0 (mkLoop [] [] 0 0 d))
    as (items & added & Hu & Hfi & Hm & Hfa & Hlen).
  cbn [uploadedMedia db app] in Hu, Hm. rewrite Hu, Hm.
  split; [exact Hfi|]. exists added. repeat split; assumption.
Qed.

End BulkUploadProperties.

Lemma bulk_upload_isolates_failures_witness :
  fst (Admin.bulkUpload sample_parse sample_cdn sample_fault sample_clock
         (Some "demo") sample_files (Admin.FString "Sunset")
         (Admin.FString "Nature") (Admin.FString "image") odd_defaults_db)
  = Admin.mkAdminResponse 200
      (Admin.BulkUploadResponse 2 1
         [ Admin.mkItem "a.png" "Sunset 1" "nature"
             (Admin.mkRecord 1 "Sunset 1" "nature"
                "https://cdn/animepixels/nature/a.png" "image" 0 true);
           Admin.mkItem "c.png" "Sunset 3" "nature"
             (Admin.mkRecord 2 "Sunset 3" "nature"
                "https://cdn/animepixels/nature/c.png" "image" 0 true) ]
         [ Admin.mkError "b.png" 1 "Upload failed" ]).
Proof.
  assert (Hcloud : "demo" <> "") by discriminate.
  assert (Hfiles : sample_files <> []) by discriminate.
  exact (proj1 (bulk_upload_isolates_failures sample_parse sample_cdn
                  sample_fault sample_clock "demo" sample_files
                  (Admin.FString "Sunset") (Admin.FString "Nature")
                  (Admin.FString "image") odd_defaults_db "image"
                  Hcloud Hfiles eq_refl eq_refl eq_refl)).
Defined.

(** With column defaults [views = 7] and [visible = false], the rows of
    the batch above are stored with [views = 0] and [visible = true]. *)
Example bulk_upload_ignores_defaults :
  Sql.media
    (snd (Admin.bulkUpload sample_parse sample_cdn sample_fault sample_clock
            (Some "demo") sample_files (Admin.FString "Sunset")
            (Admin.FString "Nature") (Admin.FString "image")
            odd_defaults_db))
  = [ Sql.mkRow 1 "Sunset 1" "nature" "https://cdn/animepixels/nature/a.png"
        "image" 0 true 100 100;
      Sql.mkRow 2 "Sunset 3" "nature" "https://cdn/animepixels/nature/c.png"
        "image" 0 true 102 102 ].
Proof. reflexivity. Qed.

(** * Further properties of the sources *)

(** ** The connection string *)

Section ConnectionString.

Import Js Database.

Lemma includes_append_r (a b p : string) :
  includes b p = true -> includes (a ++ b) p = true.
Proof.
  intros H. induction a as [|c a IH]; [exact H|].
  cbn [append includes]. rewrite IH. apply orb_true_r.
Qed.

Lemma append_nonempty (a b : string) : a <> "" -> a ++ b <> "".
Proof. destruct a; [contradiction | discriminate]. Qed.

End ConnectionString.

(** X1: [buildDatabaseUrl] leaves the empty string and every URL that
    mentions [sslmode] as they are (an explicit [sslmode=disable] is kept);
    to any other URL it appends [sslmode=require], after [&] when the URL
    has a [?] and after [?] otherwise; the result of a non-empty URL always
    mentions [sslmode], and building twice is building once. *)
Theorem buildDatabaseUrl_sslmode :
  Database.buildDatabaseUrl "" = "" /\
  (forall url, Js.includes url "sslmode" = true ->
               Database.buildDatabaseUrl url = url) /\
  (forall url, url <> "" -> Js.includes url "sslmode" = false ->
     Database.buildDatabaseUrl url
     = url ++ (if Js.includes url "?" then "&" else "?")
           ++ "sslmode=require") /\
  (forall url, url <> "" ->
     Js.includes (Database.buildDatabaseUrl url) "sslmode" = true) /\
  (forall url,
     Database.buildDatabaseUrl (Database.buildDatabaseUrl url)
     = Database.buildDatabaseUrl url).
Proof.
  assert (Hkeep : forall url, Js.includes url "sslmode" = true ->
                              Database.buildDatabaseUrl url = url).
  { intros url H. unfold Database.buildDatabaseUrl. rewrite H.
    destruct (String.eqb url ""); reflexivity. }
  assert (Hhas : forall url, url <> "" ->
            Js.includes (Database.buildDatabaseUrl url) "sslmode" = true).
  { intros url Hne. unfold Database.buildDatabaseUrl.
    destruct (String.eqb_spec url ""); [contradiction|].
    destruct (Js.includes url "sslmode") eqn:E; cbn [negb]; [exact E|].
    destruct (Js.includes url "?"); apply includes_append_r; reflexivity. }
  repeat apply conj.
  - reflexivity.
  - exact Hkeep.
  - intros url Hne H. unfold Database.buildDatabaseUrl. rewrite H.
    destruct (String.eqb_spec url ""); [contradiction|]. cbn [negb].
    destruct (Js.includes url "?"); reflexivity.
  - exact Hhas.
  - intros url. destruct (String.eqb_spec url "") as [->|Hne];
      [reflexivity|].
    apply Hkeep, Hhas, Hne.
Qed.

Lemma buildDatabaseUrl_sslmode_witness :
  Database.buildDatabaseUrl "postgres://u@h/db?x=1"
  = "postgres://u@h/db?x=1&sslmode=require" /\
  Database.buildDatabaseUrl "postgres://u@h/db"
  = "postgres://u@h/db?sslmode=require" /\
  Database.buildDatabaseUrl "postgres://u@h/db?sslmode=disable"
  = "postgres://u@h/db?sslmode=disable".
Proof.
  destruct buildDatabaseUrl_sslmode as (_ & Hkeep & Hadd & _ & _).
  split; [|split].
  - apply (Hadd "postgres://u@h/db?x=1"); [discriminate | reflexivity].
  - apply (Hadd "postgres://u@h/db"); [discriminate | reflexivity].
  - apply Hkeep. reflexivity.
Defined.

(** ** Limits and offsets given as numerals *)

Section Numerals.

Import Js.





End Numerals.


(** ** Search queries *)

Section SearchQuery.

Import Js.

Lemma trimStart_no_leading_space (s : string) :
  match trimStart s with
  | EmptyString => True
  | String c _ => isWhiteSpace c = false
  end.
Proof.
  induction s as [|c s IH]; simpl; [exact I|].
  destruct (isWhiteSpace c) eqn:E; [exact IH | exact E].
Qed.

Lemma trimEnd_keeps_head (s : string) :
  match s with
  | EmptyString => True
  | String c _ => isWhiteSpace c = false
  end ->
  trimStart (trimEnd s) = trimEnd s.
Proof.
  destruct s as [|c s]; [reflexivity|]. intros Hc. simpl.
  destruct (trimEnd s); rewrite ?Hc; simpl; rewrite Hc; reflexivity.
Qed.

Lemma trimEnd_idempotent (s : string) : trimEnd (trimEnd s) = trimEnd s.
Proof.
  induction s as [|c s IH]; [reflexivity|]. simpl.
  destruct (trimEnd s) as [|c' r] eqn:E.
  - destruct (isWhiteSpace c) eqn:W; simpl; [reflexivity|].
    now rewrite W.
  - change (trimEnd (String c (String c' r))) with
      (match trimEnd (String c' r) with
       | EmptyString => if isWhiteSpace c then EmptyString
                        else String c EmptyString
       | x => String c x
       end).
    now rewrite IH.
Qed.

Lemma trim_idempotent (s : string) : trim (trim s) = trim s.
Proof.
  unfold trim.
  rewrite (trimEnd_keeps_head (trimStart s) (trimStart_no_leading_space s)).
  apply trimEnd_idempotent.
Qed.

(** Every message of [validateSearchQuery] is recognised by the [catch] of
    the search handlers. *)
Lemma validateSearchQuery_message (q : QueryValue) (msg : string) :
  validateSearchQuery q = Throw msg -> includes msg "Search query" = true.
Proof.
  unfold validateSearchQuery.
  destruct q as [|[|c s]|xs| |n]; try (intros [= <-]; reflexivity).
  destruct (strlen _ =? 0); [intros [= <-]; reflexivity|].
  destruct (255 <? strlen _); [intros [= <-]; reflexivity | discriminate].
Qed.

End SearchQuery.

(** X3: a search query that [validateSearchQuery] accepts is a string, and
    the value returned is that string trimmed, of 1 to 255 characters;
    validating the returned value again returns it unchanged. *)
Theorem validateSearchQuery_accepts_trimmed (q : QueryValue) (t : string) :
  validateSearchQuery q = Ok t ->
  (exists s, q = QString s /\ t = Js.trim s) /\
  1 <= Js.strlen t <= 255 /\
  validateSearchQuery (QString t) = Ok t.
Proof.
  unfold validateSearchQuery at 1.
  destruct q as [|[|c s]|xs| |n]; try discriminate.
  destruct (Js.strlen (Js.trim (String c s)) =? 0) eqn:E0; [discriminate|].
  destruct (255 <? Js.strlen (Js.trim (String c s))) eqn:E1; [discriminate|].
  intros [= <-].
  pose proof (proj1 (Z.eqb_neq _ _) E0) as N0.
  pose proof (proj1 (Z.ltb_ge _ _) E1) as N1.
  assert (Hpos : 0 <= Js.strlen (Js.trim (String c s)))
    by (unfold Js.strlen; lia).
  split; [exists (String c s); split; reflexivity|]. split; [lia|].
  pose proof (trim_idempotent (String c s)) as Hidem.
  destruct (Js.trim (String c s)) as [|c' t'] eqn:T.
  - discriminate E0.
  - unfold validateSearchQuery. now rewrite Hidem, E0, E1.
Qed.

Lemma validateSearchQuery_accepts_trimmed_witness :
  validateSearchQuery (QString "  naruto  ") = Ok "naruto" /\
  validateSearchQuery (QString "naruto") = Ok "naruto".
Proof.
  assert (H : validateSearchQuery (QString "  naruto  ") = Ok "naruto")
    by reflexivity.
  split; [exact H|].
  exact (proj2 (proj2 (validateSearchQuery_accepts_trimmed _ _ H))).
Defined.

(** X4: a search handler answers 400 exactly when the query is rejected by
    [validateSearchQuery] (absent, not a string, empty after trimming, or
    longer than 255 characters), and then with the message of the
    validator, whatever the state of the database. *)
Theorem search_rejects_invalid_query
  (t noneMsg : string) (d : Sql.Db) (q limitParam offsetParam : QueryValue) :
  (forall msg,
     validateSearchQuery q = Throw msg ->
     Media.searchOfType t noneMsg d q limitParam offsetParam
     = Media.mkResponse 400 (Media.ErrorBody msg)) /\
  (Media.status (Media.searchOfType t noneMsg d q limitParam offsetParam)
   = 400 <->
   exists msg, validateSearchQuery q = Throw msg).
Proof.
  assert (Hrej : forall msg,
             validateSearchQuery q = Throw msg ->
             Media.searchOfType t noneMsg d q limitParam offsetParam
             = Media.mkResponse 400 (Media.ErrorBody msg)).
  { intros msg H. unfold Media.searchOfType. rewrite H.
    cbn [bindExc Media.catchSearch].
    now rewrite (validateSearchQuery_message q msg H). }
  split; [exact Hrej|]. split.
  - intros Hst. destruct (validateSearchQuery q) as [sq|msg] eqn:Hq;
      [|now exists msg].
    exfalso. destruct (Sql.pool d) eqn:Hpool.
    + destruct (searchOfType_page t noneMsg d q limitParam offsetParam sq
                  Hpool Hq) as (_ & Hbeyond & Hwithin).
      destruct (Z.le_gt_cases
                  (matching d (Sql.whereSearch t (searchPatternOf sq)))
                  (getOffset offsetParam)) as [Hle|Hgt].
      * destruct (Hbeyond Hle) as [H404 _]. congruence.
      * specialize (Hwithin Hgt). congruence.
    + revert Hst. unfold Media.searchOfType, Sql.selectPage,
        Sql.getConnection. rewrite Hq, Hpool. cbn. discriminate.
  - intros [msg H]. now rewrite (Hrej msg H).
Qed.

Lemma search_rejects_invalid_query_witness :
  Media.searchImage sample_db (QString "   ") QUndefined QUndefined
  = Media.mkResponse 400 (Media.ErrorBody "Search query cannot be empty") /\
  Media.searchImage sample_db QUndefined QUndefined QUndefined
  = Media.mkResponse 400 (Media.ErrorBody "Search query is required").
Proof.
  split.
  - apply (proj1 (search_rejects_invalid_query "image" "No images found"
                    sample_db (QString "   ") QUndefined QUndefined)).
    reflexivity.
  - apply (proj1 (search_rejects_invalid_query "image" "No images found"
                    sample_db QUndefined QUndefined QUndefined)).
    reflexivity.
Defined.

(** ** Category parameters *)

Lemma validateCategory_Throw (c msg : string) :
  Auth.validateCategory c = Throw msg -> msg = "Invalid category: " ++ c.
Proof.
  unfold Auth.validateCategory.
  destruct (negb (Auth.has Auth.ALLOWED_CATEGORIES (Auth.normalize c)));
    [now intros [= <-] | discriminate].
Qed.

(** X5: a handler with a category parameter ([/image/:category],
    [/gif/:category] and the two random variants) answers 400 exactly when
    the parameter does not normalize to an allowed category, and then with
    the text [Invalid category: ] followed by the parameter as given,
    whatever the state of the database. *)
Theorem category_handlers_reject_invalid
  (t noneMsg : string) (d : Sql.Db) (categoryParam : string)
  (limitParam offsetParam : QueryValue) (rnd : nat) :
  let listed :=
    Media.byCategory t noneMsg d categoryParam limitParam offsetParam in
  let drawn := Media.randomInCategory t noneMsg d categoryParam rnd in
  let invalid :=
    Auth.has Auth.ALLOWED_CATEGORIES (Auth.normalize categoryParam)
    = false in
  (invalid ->
   listed = Media.mkResponse 400
              (Media.ErrorBody ("Invalid category: " ++ categoryParam)) /\
   drawn = listed) /\
  (Media.status listed = 400 <-> invalid) /\
  (Media.status drawn = 400 <-> invalid).
Proof.
  cbn zeta. unfold Media.byCategory, Media.randomInCategory,
    Auth.validateCategory.
  destruct (Auth.has Auth.ALLOWED_CATEGORIES (Auth.normalize categoryParam))
    eqn:Hhas; cbn [negb bindExc].
  - assert (Hin : Auth.validateCategory categoryParam
                  = Ok (Auth.normalize categoryParam))
      by (unfold Auth.validateCategory; now rewrite Hhas).
    split; [discriminate|].
    unfold Sql.selectPage, Sql.selectCount, Sql.selectRandom,
      Sql.getConnection.
    destruct (Sql.pool d); cbn [negb bindExc Media.catchCategory].
    + split; (split; [|discriminate]).
      * destruct (Media.rowsLength _ =? 0); cbn; discriminate.
      * destruct (nth_error _ _); cbn; discriminate.
    + cbn. split; (split; discriminate).
  - cbn. repeat split; reflexivity.
Qed.

Lemma category_handlers_reject_invalid_witness :
  Media.imagesByCategory sample_db " naruto" QUndefined QUndefined
  = Media.mkResponse 400 (Media.ErrorBody "Invalid category:  naruto") /\
  Media.randomImageByCategory sample_db " naruto" 0
  = Media.mkResponse 400 (Media.ErrorBody "Invalid category:  naruto").
Proof.
  destruct (category_handlers_reject_invalid "image"
              "No images in this category" sample_db " naruto" QUndefined
              QUndefined 0) as (H & _).
  destruct (H eq_refl) as [Hl Hd]. split; [exact Hl|].
  exact (eq_trans eq_refl (eq_trans Hd Hl)).
Defined.

(** ** Handlers without a pool *)

(** X6: while the pool does not exist, every read handler that gets past
    the validation of its parameters answers 500 with
    [Database not initialized], and a lookup by id leaves the state as it
    is. *)
Theorem read_handlers_without_pool (d : Sql.Db) (t noneMsg : string)
  (limitParam offsetParam : QueryValue) (rnd : nat) :
  Sql.pool d = false ->
  Media.allOfType t noneMsg d limitParam offsetParam = notInitialized /\
  (forall w, Media.randomWhere w noneMsg d rnd = notInitialized) /\
  (forall q searchQuery,
     validateSearchQuery q = Ok searchQuery ->
     Media.searchOfType t noneMsg d q limitParam offsetParam
     = notInitialized) /\
  (forall categoryParam category,
     Auth.validateCategory categoryParam = Ok category ->
     Media.byCategory t noneMsg d categoryParam limitParam offsetParam
     = notInitialized /\
     Media.randomInCategory t noneMsg d categoryParam rnd
     = notInitialized) /\
  (forall media_id n,
     Js.parseInt media_id = Some n -> 1 <= n ->
     Media.byId t noneMsg d media_id = (notInitialized, d)) /\
  Tables.tables d
  = Tables.mkTables 500 (Tables.TablesError "Database not initialized").
Proof.
  intros Hpool. repeat apply conj.
  - unfold Media.allOfType, Sql.selectPage, Sql.getConnection.
    now rewrite Hpool.
  - intros w. unfold Media.randomWhere, Sql.selectRandom, Sql.getConnection.
    now rewrite Hpool.
  - intros q sq Hq. unfold Media.searchOfType, Sql.selectPage,
      Sql.getConnection. now rewrite Hq, Hpool.
  - intros categoryParam category H. split.
    + unfold Media.byCategory, Sql.selectPage, Sql.getConnection.
      now rewrite H, Hpool.
    + unfold Media.randomInCategory, Sql.selectRandom, Sql.getConnection.
      now rewrite H, Hpool.
  - intros media_id n Hn Hge. unfold Media.byId, Media.invalidId,
      Sql.selectWhere, Sql.getConnection. rewrite Hn, Hpool.
    destruct (n <? 1) eqn:E; [apply Z.ltb_lt in E; lia | reflexivity].
  - unfold Tables.tables, Sql.getConnection. now rewrite Hpool.
Qed.

Lemma read_handlers_without_pool_witness :
  Media.allImages (Sql.mkDb false sample_rows 13 0 true) QUndefined
    QUndefined = notInitialized /\
  Media.gifById (Sql.mkDb false sample_rows 13 0 true) "12"
  = (notInitialized, Sql.mkDb false sample_rows 13 0 true).
Proof.
  destruct (read_handlers_without_pool (Sql.mkDb false sample_rows 13 0 true)
              "image" "No images available" QUndefined QUndefined 0 eq_refl)
    as (Hall & _).
  destruct (read_handlers_without_pool (Sql.mkDb false sample_rows 13 0 true)
              "gif" "GIF not found" QUndefined QUndefined 0 eq_refl)
    as (_ & _ & _ & _ & Hid & _).
  split; [exact Hall|]. apply (Hid "12" 12 eq_refl). lia.
Defined.

(** ** The rows of a page *)

Section PageRows.

Import Sql Media.

Lemma descendingBy_app (key : MediaRow -> Z) (a b : list MediaRow) :
  descendingBy key (a ++ b)%list ->
  descendingBy key a /\ descendingBy key b.
Proof.
  induction a as [|x a IH]; simpl; [tauto|].
  intros [Hall Hrest]. apply Forall_app in Hall.
  destruct (IH Hrest). tauto.
Qed.

Lemma insertDesc_descending (key : MediaRow -> Z) (r : MediaRow) :
  forall rows, descendingBy key rows ->
               descendingBy key (insertDesc key r rows).
Proof.
  induction rows as [|x rows IH]; simpl.
  - intros _. split; [constructor | exact I].
  - intros [Hall Hrest]. destruct (key r <? key x) eqn:E.
    + apply Z.ltb_lt in E. simpl. split; [|now apply IH].
      apply (Permutation_Forall (insertDesc_perm key r rows)).
      constructor; [lia | exact Hall].
    + apply Z.ltb_ge in E. simpl. repeat split; try assumption.
      constructor; [exact E|].
      apply (Forall_impl _ (fun y (H : key y <= key x) =>
                              Z.le_trans _ _ _ H E) Hall).
Qed.

Lemma orderByDesc_descending (key : MediaRow -> Z) :
  forall rows, descendingBy key (orderByDesc key rows).
Proof.
  induction rows as [|r rows IH]; simpl; [exact I|].
  now apply insertDesc_descending.
Qed.

Lemma limitOffset_incl (limit offset : Z) (rows : list MediaRow) :
  incl (limitOffset limit offset rows) rows.
Proof.
  unfold limitOffset. intros x Hx.
  rewrite <- (firstn_skipn (Z.to_nat offset) rows).
  apply in_or_app. right.
  rewrite <- (firstn_skipn (Z.to_nat limit) (skipn (Z.to_nat offset) rows)).
  apply in_or_app. now left.
Qed.

Lemma limitOffset_descending (key : MediaRow -> Z) (limit offset : Z)
  (rows : list MediaRow) :
  descendingBy key rows -> descendingBy key (limitOffset limit offset rows).
Proof.
  intros H. unfold limitOffset.
  rewrite <- (firstn_skipn (Z.to_nat offset) rows) in H.
  apply descendingBy_app in H. destruct H as [_ H].
  rewrite <- (firstn_skipn (Z.to_nat limit)
                (skipn (Z.to_nat offset) rows)) in H.
  now apply descendingBy_app in H.
Qed.

(** The page of a filter: rows of the table that pass it, in order. *)
Lemma page_rows (d : Db) (w : MediaRow -> bool) (key : MediaRow -> Z)
  (limit offset : Z) :
  let page :=
    limitOffset limit offset (orderByDesc key (filter w (media d))) in
  Forall (fun row => In row (media d) /\ w row = true) page /\
  descendingBy key page.
Proof.
  cbn zeta. split.
  - apply Forall_forall. intros row Hrow.
    apply limitOffset_incl in Hrow.
    apply (Permutation_in _ (Permutation_sym (orderByDesc_perm key _)))
      in Hrow.
    now apply filter_In in Hrow.
  - apply limitOffset_descending, orderByDesc_descending.
Qed.

(** The rows a paginated handler answers with: none, or the page. *)
Lemma allOfType_results (t noneMsg : string) (d : Db)
  (limitParam offsetParam : QueryValue) :
  let rows := resultsOf (body (allOfType t noneMsg d limitParam
                                 offsetParam)) in
  rows = [] \/
  rows = limitOffset (getLimit limitParam) (getOffset offsetParam)
           (orderByDesc created_at (filter (whereType t) (media d))).
Proof.
  cbn zeta. unfold allOfType, selectPage, selectCount, getConnection.
  destruct (pool d); cbn [negb bindExc catch500]; [|now left].
  destruct (rowsLength _ =? 0); cbn; [now left | now right].
Qed.

Lemma searchOfType_results (t noneMsg : string) (d : Db)
  (q limitParam offsetParam : QueryValue) :
  let rows := resultsOf (body (searchOfType t noneMsg d q limitParam
                                 offsetParam)) in
  rows = [] \/
  exists searchQuery,
    validateSearchQuery q = Ok searchQuery /\
    rows = limitOffset (Z.min (getLimit limitParam) SEARCH_LIMIT)
             (getOffset offsetParam)
             (orderByDesc views
                (filter (whereSearch t (searchPatternOf searchQuery))
                   (media d))).
Proof.
  cbn zeta. unfold searchOfType, selectPage, selectCount, getConnection.
  destruct (validateSearchQuery q) as [sq|msg]; cbn [bindExc catchSearch].
  - destruct (pool d); cbn [negb bindExc catchSearch].
    + destruct (rowsLength _ =? 0); cbn; [now left|].
      right. exists sq. split; reflexivity.
    + left. destruct (Js.includes _ _); reflexivity.
  - left. destruct (Js.includes _ _); reflexivity.
Qed.

Lemma byCategory_results (t noneMsg : string) (d : Db)
  (categoryParam : string) (limitParam offsetParam : QueryValue) :
  let rows := resultsOf (body (byCategory t noneMsg d categoryParam
                                 limitParam offsetParam)) in
  rows = [] \/
  exists category,
    Auth.validateCategory categoryParam = Ok category /\
    rows = limitOffset (getLimit limitParam) (getOffset offsetParam)
             (orderByDesc created_at
                (filter (whereCategoryType category t) (media d))).
Proof.
  cbn zeta. unfold byCategory, selectPage, selectCount, getConnection.
  destruct (Auth.validateCategory categoryParam) as [c|msg];
    cbn [bindExc catchCategory].
  - destruct (pool d); cbn [negb bindExc catchCategory].
    + destruct (rowsLength _ =? 0); cbn; [now left|].
      right. exists c. split; reflexivity.
    + left. destruct (Js.startsWith _ _); reflexivity.
  - left. destruct (Js.startsWith _ _); reflexivity.
Qed.

End PageRows.

(** X7: every row that [/all-images], [/all-gifs], a search or a category
    listing answers with is a row of the table that is visible and of the
    type of the endpoint; for a search it also matches the pattern in its
    title or its category, and for a category listing its category is the
    validated one. *)
Theorem page_rows_pass_the_filter
  (t noneMsg : string) (d : Sql.Db) (limitParam offsetParam : QueryValue) :
  Forall (fun row =>
            In row (Sql.media d) /\ Sql.visible row = true /\
            Sql.media_type row = t)
    (Media.resultsOf
       (Media.body (Media.allOfType t noneMsg d limitParam offsetParam))) /\
  (forall q,
     Forall (fun row =>
               In row (Sql.media d) /\ Sql.visible row = true /\
               Sql.media_type row = t /\
               exists searchQuery,
                 validateSearchQuery q = Ok searchQuery /\
                 (Sql.like (searchPatternOf searchQuery)
                    (Sql.LOWER (Sql.title row))
                  || Sql.like (searchPatternOf searchQuery)
                       (Sql.LOWER (Sql.category row))) = true)
       (Media.resultsOf
          (Media.body
             (Media.searchOfType t noneMsg d q limitParam offsetParam)))) /\
  (forall categoryParam,
     Forall (fun row =>
               In row (Sql.media d) /\ Sql.visible row = true /\
               Sql.media_type row = t /\
               Auth.validateCategory categoryParam = Ok (Sql.category row))
       (Media.resultsOf
          (Media.body
             (Media.byCategory t noneMsg d categoryParam limitParam
                offsetParam)))).
Proof.
  repeat apply conj.
  - destruct (allOfType_results t noneMsg d limitParam offsetParam)
      as [->| ->]; [constructor|].
    eapply Forall_impl; [|apply page_rows].
    intros row [Hin Hw]. apply whereType_true in Hw. tauto.
  - intros q.
    destruct (searchOfType_results t noneMsg d q limitParam offsetParam)
      as [->|(sq & Hq & ->)]; [constructor|].
    eapply Forall_impl; [|apply page_rows].
    intros row [Hin Hw]. unfold Sql.whereSearch in Hw.
    apply andb_true_iff in Hw. destruct Hw as [Hw Hlike].
    apply andb_true_iff in Hw. destruct Hw as [Hv Ht].
    apply String.eqb_eq in Ht. repeat split; try assumption.
    exists sq. split; assumption.
  - intros c.
    destruct (byCategory_results t noneMsg d c limitParam offsetParam)
      as [->|(cat & Hc & ->)]; [constructor|].
    eapply Forall_impl; [|apply page_rows].
    intros row [Hin Hw]. apply whereCategoryType_true in Hw.
    destruct Hw as (<- & Ht & Hv). tauto.
Qed.

(** X8: the rows of [/all-images], [/all-gifs] and of a category listing
    are in descending order of [created_at], and the rows of a search in
    descending order of [views]. *)
Theorem page_rows_are_ordered
  (t noneMsg : string) (d : Sql.Db) (limitParam offsetParam : QueryValue) :
  descendingBy Sql.created_at
    (Media.resultsOf
       (Media.body (Media.allOfType t noneMsg d limitParam offsetParam))) /\
  (forall q,
     descendingBy Sql.views
       (Media.resultsOf
          (Media.body
             (Media.searchOfType t noneMsg d q limitParam offsetParam)))) /\
  (forall categoryParam,
     descendingBy Sql.created_at
       (Media.resultsOf
          (Media.body
             (Media.byCategory t noneMsg d categoryParam limitParam
                offsetParam)))).
Proof.
  repeat apply conj.
  - destruct (allOfType_results t noneMsg d limitParam offsetParam)
      as [->| ->]; [exact I | apply page_rows].
  - intros q.
    destruct (searchOfType_results t noneMsg d q limitParam offsetParam)
      as [->|(sq & Hq & ->)]; [exact I | apply page_rows].
  - intros c.
    destruct (byCategory_results t noneMsg d c limitParam offsetParam)
      as [->|(cat & Hc & ->)]; [exact I | apply page_rows].
Qed.

(** ** What a search matches *)

Section SearchMatch.

Import Js Sql.

(** [%] alone matches everything. *)
Lemma like_percent (s : string) : like "%" s = true.
Proof.
  induction s as [|c s IH]; [reflexivity|].
  simpl in *. exact IH.
Qed.

(** A pattern that starts with [%] matches when its rest matches some
    suffix of the subject. *)
Lemma like_percent_cons (p s : string) :
  like (String "%" p) s
  = like p s || match s with
                | EmptyString => false
                | String _ s' => like (String "%" p) s'
                end.
Proof. destruct s; reflexivity. Qed.

Lemma like_onlyPercent (p s : string) :
  onlyPercent p = true -> like (String "%" p) s = true.
Proof.
  revert s. induction p as [|c p IH]; intros s H; [apply like_percent|].
  simpl in H. apply andb_true_iff in H. destruct H as [Hc Hp].
  apply Ascii.eqb_eq in Hc. subst c.
  rewrite like_percent_cons. now rewrite IH.
Qed.

(** A literal character of a pattern is matched with the same character
    of the subject. *)
Lemma like_literal_cons (c : ascii) (p s : string) :
  isLikeSpecial c = false ->
  like (String c p) s
  = match s with
    | EmptyString => false
    | String c' s' => Ascii.eqb c c' && like p s'
    end.
Proof.
  destruct c as [[|] [|] [|] [|] [|] [|] [|] [|]]; intros H;
    try discriminate H; reflexivity.
Qed.

Lemma prefix_cons (c c' : ascii) (p s : string) :
  String.prefix (String c p) (String c' s)
  = Ascii.eqb c c' && String.prefix p s.
Proof.
  simpl. destruct (ascii_dec c c') as [->|Hne].
  - now rewrite Ascii.eqb_refl.
  - apply Ascii.eqb_neq in Hne. now rewrite Hne.
Qed.

(** A pattern of literal characters followed by [%] matches the subjects
    it is a prefix of. *)
Lemma like_literal_prefix (q : string) :
  noLikeSpecial q = true ->
  forall s, like (q ++ "%") s = String.prefix q s.
Proof.
  induction q as [|c q IH]; intros H s.
  - simpl. rewrite like_percent. now destruct s.
  - simpl in H. apply andb_true_iff in H. destruct H as [Hc Hq].
    apply negb_true_iff in Hc.
    change (String c q ++ "%") with (String c (q ++ "%")).
    rewrite (like_literal_cons c _ s Hc).
    destruct s as [|c' s]; [reflexivity|].
    now rewrite prefix_cons, IH.
Qed.

Lemma like_substring (q : string) :
  noLikeSpecial q = true ->
  forall s, like (String "%" (q ++ "%")) s = includes s q.
Proof.
  intros H. induction s as [|c s IH].
  - rewrite like_percent_cons, (like_literal_prefix q H). simpl.
    now rewrite orb_false_r.
  - rewrite like_percent_cons, (like_literal_prefix q H), IH. reflexivity.
Qed.

Lemma isLikeSpecial_toLowerChar (c : ascii) :
  isLikeSpecial (toLowerChar c) = isLikeSpecial c.
Proof.
  destruct c as [[|] [|] [|] [|] [|] [|] [|] [|]]; vm_compute; reflexivity.
Qed.

Lemma noLikeSpecial_toLowerCase (q : string) :
  noLikeSpecial (toLowerCase q) = noLikeSpecial q.
Proof.
  induction q as [|c q IH]; [reflexivity|].
  simpl. now rewrite isLikeSpecial_toLowerChar, IH.
Qed.

End SearchMatch.

(** X9: for a search query without [%], [_] and backslash, a row matches
    exactly when it is visible, of the type searched, and the query in
    lower case occurs in its title or in its category in lower case. *)
Theorem search_matches_substring (t searchQuery : string)
  (row : Sql.MediaRow) :
  noLikeSpecial searchQuery = true ->
  Sql.whereSearch t (searchPatternOf searchQuery) row
  = Sql.visible row && String.eqb (Sql.media_type row) t
    && (Js.includes (Js.toLowerCase (Sql.title row))
          (Js.toLowerCase searchQuery)
        || Js.includes (Js.toLowerCase (Sql.category row))
             (Js.toLowerCase searchQuery)).
Proof.
  intros H. rewrite <- noLikeSpecial_toLowerCase in H.
  unfold Sql.whereSearch, searchPatternOf, Sql.LOWER.
  change ("%" ++ Js.toLowerCase searchQuery ++ "%")
    with (String "%" (Js.toLowerCase searchQuery ++ "%")).
  now rewrite !(like_substring _ H).
Qed.

Lemma search_matches_substring_witness :
  noLikeSpecial "DRAG" = true /\
  Sql.whereSearch "image" (searchPatternOf "DRAG")
    (Sql.mkRow 1 "Red dragon" "dragon_ball" "https://cdn/1" "image" 5 true
       10 10)
  = true.
Proof.
  split; [reflexivity|].
  rewrite (search_matches_substring "image" "DRAG" _ eq_refl). reflexivity.
Defined.

(** X10: the characters of the query go into the pattern as they are, so a
    query made of [%] only matches every visible row of the type
    searched. *)
Theorem search_percent_matches_all (t searchQuery : string)
  (row : Sql.MediaRow) :
  onlyPercent searchQuery = true ->
  Sql.whereSearch t (searchPatternOf searchQuery) row
  = Sql.visible row && String.eqb (Sql.media_type row) t.
Proof.
  intros H. unfold Sql.whereSearch, searchPatternOf.
  change ("%" ++ Js.toLowerCase searchQuery ++ "%")
    with (String "%" (Js.toLowerCase searchQuery ++ "%")).
  assert (Hp : onlyPercent (Js.toLowerCase searchQuery ++ "%") = true).
  { clear row. induction searchQuery as [|c q IH]; [reflexivity|].
    simpl in H. apply andb_true_iff in H. destruct H as [Hc Hq].
    apply Ascii.eqb_eq in Hc. subst c. simpl. now apply IH. }
  rewrite !(like_onlyPercent _ _ Hp). now rewrite andb_true_r.
Qed.

Lemma search_percent_matches_all_witness :
  validateSearchQuery (QString "%") = Ok "%" /\
  matching sample_db (Sql.whereSearch "image" (searchPatternOf "%"))
  = matching sample_db (Sql.whereType "image") /\
  Sql.whereSearch "image" (searchPatternOf "%")
    (Sql.mkRow 3 "Straw hat" "one_piece" "https://cdn/3" "image" 0 true 30
       30) = true.
Proof.
  split; [reflexivity|]. split; [reflexivity|].
  rewrite (search_percent_matches_all "image" "%" _ eq_refl). reflexivity.
Defined.

(** ** The view counter *)

Section Views.

Import Sql Media.

Lemma addViews_zero (i : Z) (r : MediaRow) : addViews i 0 r = r.
Proof.
  unfold addViews. destruct (id r =? i); [|reflexivity].
  destruct r; simpl. now rewrite Z.add_0_r.
Qed.

Lemma addViews_add (i j k : Z) (r : MediaRow) :
  addViews i k (addViews i j r) = addViews i (j + k) r.
Proof.
  unfold addViews. destruct (id r =? i) eqn:E; simpl; rewrite E;
    [|reflexivity].
  now rewrite Z.add_assoc.
Qed.

Lemma whereIdType_addViews (n : Z) (t : string) (i k : Z) (r : MediaRow) :
  whereIdType n t (addViews i k r) = whereIdType n t r.
Proof. unfold addViews. now destruct (id r =? i). Qed.

Lemma filter_map_addViews (n : Z) (t : string) (i k : Z) :
  forall rows,
    filter (whereIdType n t) (map (addViews i k) rows)
    = map (addViews i k) (filter (whereIdType n t) rows).
Proof.
  induction rows as [|r rows IH]; [reflexivity|].
  simpl. rewrite whereIdType_addViews, IH.
  now destruct (whereIdType n t r).
Qed.

(** What [incrementViews] does to the table while the pool exists. *)
Lemma incrementViews_connected (d : Db) (n : Z) :
  pool d = true ->
  incrementViews d n
  = mkDb true (map (addViews n 1) (media d)) (next_id d) (default_views d)
      (default_visible d).
Proof.
  intros H. unfold incrementViews, updateViews, getConnection.
  rewrite H. reflexivity.
Qed.

(** One lookup that finds a row. *)
Lemma byId_hit (t notFoundMsg : string) (d : Db) (media_id : string)
  (n : Z) (row : MediaRow) (rest : list MediaRow) :
  Js.parseInt media_id = Some n -> 1 <= n -> pool d = true ->
  filter (whereIdType n t) (media d) = row :: rest ->
  byId t notFoundMsg d media_id
  = (mkResponse 200 (RowBody row),
     mkDb true (map (addViews n 1) (media d)) (next_id d) (default_views d)
       (default_visible d)).
Proof.
  intros Hn Hge Hpool Hf. unfold byId, invalidId. rewrite Hn.
  destruct (n <? 1) eqn:E; [apply Z.ltb_lt in E; lia|].
  rewrite (selectWhere_connected d _ Hpool), Hf.
  now rewrite (incrementViews_connected d n Hpool).
Qed.

Lemma sameButViews_refl (r : MediaRow) : sameButViews r r.
Proof. unfold sameButViews. repeat split; lia. Qed.

Lemma sameButViews_addViews (n : Z) (r : MediaRow) :
  sameButViews r (addViews n 1 r).
Proof.
  unfold addViews. destruct (id r =? n); [|apply sameButViews_refl].
  unfold sameButViews. simpl. repeat split; lia.
Qed.

End Views.

(** X11: a lookup by id never adds or removes a row and never changes
    anything but views, which it never lowers: the table after the lookup
    holds the same rows in the same order, each with its views or one
    more; and a lookup that does not answer 200 leaves the state as it
    is. *)
Theorem by_id_changes_views_only
  (t notFoundMsg : string) (d : Sql.Db) (media_id : string) :
  Forall2 sameButViews (Sql.media d)
    (Sql.media (snd (Media.byId t notFoundMsg d media_id))) /\
  (Media.status (fst (Media.byId t notFoundMsg d media_id)) <> 200 ->
   snd (Media.byId t notFoundMsg d media_id) = d).
Proof.
  assert (Hsame : Forall2 sameButViews (Sql.media d) (Sql.media d)).
  { induction (Sql.media d); constructor; auto using sameButViews_refl. }
  unfold Media.byId.
  destruct (Media.invalidId (Js.parseInt media_id)); [now split|].
  destruct (Sql.selectWhere d _) as [[|row rows]|msg] eqn:S;
    cbn [fst snd Media.status Media.json]; try now split.
  split; [|congruence].
  unfold Sql.selectWhere, Sql.getConnection in S.
  destruct (Sql.pool d) eqn:Hpool; [|discriminate S].
  rewrite (incrementViews_connected d _ Hpool). simpl.
  clear. induction (Sql.media d); constructor;
    auto using sameButViews_addViews.
Qed.

(** X12: while the row exists (visible and of the type asked for), [k]
    lookups of its id all answer 200, the [i]-th of them with the views the
    row had plus [i], and they leave exactly [k] more views on the rows of
    that id and nothing else changed. *)
Theorem by_id_counts_every_fetch
  (t notFoundMsg media_id : string) (n : Z) (k : nat) :
  forall (d : Sql.Db) (row : Sql.MediaRow) (rest : list Sql.MediaRow),
    Js.parseInt media_id = Some n -> 1 <= n -> Sql.pool d = true ->
    filter (Sql.whereIdType n t) (Sql.media d) = row :: rest ->
    fst (fetchTimes t notFoundMsg media_id k d)
    = map (fun i =>
             Media.mkResponse 200
               (Media.RowBody (addViews n (Z.of_nat i) row)))
          (seq 0 k) /\
    Sql.media (snd (fetchTimes t notFoundMsg media_id k d))
    = map (addViews n (Z.of_nat k)) (Sql.media d).
Proof.
  induction k as [|k IH]; intros d row rest Hn Hge Hpool Hf.
  - simpl. split; [reflexivity|].
    rewrite (map_ext _ (fun r => r) (addViews_zero n)). now rewrite map_id.
  - cbn [fetchTimes].
    rewrite (byId_hit t notFoundMsg d media_id n row rest Hn Hge Hpool Hf).
    set (d1 := Sql.mkDb true (map (addViews n 1) (Sql.media d))
                 (Sql.next_id d) (Sql.default_views d)
                 (Sql.default_visible d)).
    assert (Hf1 : filter (Sql.whereIdType n t) (Sql.media d1)
                  = addViews n 1 row :: map (addViews n 1) rest).
    { unfold d1. cbn [Sql.media]. now rewrite filter_map_addViews, Hf. }
    destruct (IH d1 (addViews n 1 row) (map (addViews n 1) rest) Hn Hge
                eq_refl Hf1) as [Hrs Hm].
    destruct (fetchTimes t notFoundMsg media_id k d1) as [rs d2].
    cbn [fst snd] in *. split.
    + rewrite Hrs. cbn [seq map]. rewrite addViews_zero. f_equal.
      rewrite <- seq_shift, map_map. apply map_ext. intros i.
      rewrite addViews_add. do 3 f_equal. lia.
    + rewrite Hm. unfold d1. cbn [Sql.media]. rewrite map_map.
      apply map_ext. intros r. rewrite addViews_add. f_equal. lia.
Qed.

Lemma by_id_counts_every_fetch_witness :
  map (fun r => Media.rowOf (Media.body r))
    (fst (fetchTimes "gif" "GIF not found" "12" 3 sample_db))
  = [ Some (Sql.mkRow 12 "Dancing dragon" "dragon_ball" "https://cdn/12"
              "gif" 7 true 50 50);
      Some (Sql.mkRow 12 "Dancing dragon" "dragon_ball" "https://cdn/12"
              "gif" 8 true 50 50);
      Some (Sql.mkRow 12 "Dancing dragon" "dragon_ball" "https://cdn/12"
              "gif" 9 true 50 50) ] /\
  map Sql.views
    (Sql.media (snd (fetchTimes "gif" "GIF not found" "12" 3 sample_db)))
  = [5; 9; 0; 2; 10].
Proof.
  destruct (by_id_counts_every_fetch "gif" "GIF not found" "12" 12 3
              sample_db
              (Sql.mkRow 12 "Dancing dragon" "dragon_ball" "https://cdn/12"
                 "gif" 7 true 50 50) [] eq_refl ltac:(lia) eq_refl eq_refl)
    as [Hrs Hm].
  rewrite Hrs, Hm. split; reflexivity.
Defined.

Lemma by_id_changes_views_only_witness :
  Media.status (fst (Media.imageById sample_db "12")) <> 200 /\
  snd (Media.imageById sample_db "12") = sample_db.
Proof.
  assert (H : Media.status (fst (Media.imageById sample_db "12")) <> 200)
    by discriminate.
  split; [exact H|].
  exact (proj2 (by_id_changes_views_only "image" "Image not found"
                  sample_db "12") H).
Defined.

(** ** Bulk upload: what is checked before the loop *)

Section BulkUploadChecks.

Import Sql Admin.

Local Open Scope list_scope.

Variable JSON_parse_array : string -> option (list string).
Variable upload_stream : nat -> UploadParams -> UploadFile -> CdnOutcome.
Variable insert_fault : nat -> option string.
Variable clock : nat -> Z.

Local Abbreviation processFile :=
  (processFile upload_stream insert_fault clock).
Local Abbreviation loop := (loop upload_stream insert_fault clock).
Local Abbreviation bulkUpload :=
  (bulkUpload JSON_parse_array upload_stream insert_fault clock).



End BulkUploadChecks.


(** X14: the count check on titles (and likewise on categories) passes
    exactly when one value or one value per file was given: a single value
    is replicated to the number of files, and no other number of values is
    adjusted. *)
Theorem count_check_one_or_per_file (values : list string) (nfiles : nat) :
  (0 < nfiles)%nat ->
  (List.length (Admin.normalizeTitles values nfiles) = nfiles <->
   List.length values = nfiles \/ List.length values = 1%nat) /\
  (List.length (Admin.normalizeCategories values nfiles) = nfiles <->
   List.length values = nfiles \/ List.length values = 1%nat).
Proof.
  intros Hn. unfold Admin.normalizeTitles, Admin.normalizeCategories,
    Admin.replicateTitle, Admin.replicateCategory.
  destruct values as [|v [|v' rest]]; cbn [List.length].
  - split; (split; [now left | intros [H|H]; [exact H | discriminate H]]).
  - destruct (Nat.ltb_spec 1 nfiles);
      rewrite ?length_map, ?length_seq, ?repeat_length; cbn [List.length];
      split; (split; [auto | intros _; lia]).
  - split; (split; [now left | intros [H|H]; [exact H | discriminate H]]).
Qed.

Lemma count_check_one_or_per_file_witness :
  List.length (Admin.normalizeTitles ["Sunset"] 3) = 3%nat /\
  List.length (Admin.normalizeCategories ["a"; "b"; "c"] 3) = 3%nat.
Proof.
  destruct (count_check_one_or_per_file ["Sunset"] 3 ltac:(lia)) as [Ht _].
  destruct (count_check_one_or_per_file ["a"; "b"; "c"] 3 ltac:(lia))
    as [_ Hc].
  split; [apply Ht; now right | apply Hc; now left].
Defined.

(** ** Bulk upload: what the loop stores *)

Section BulkUploadRows.

Import Sql Admin.

Local Open Scope list_scope.

Variable JSON_parse_array : string -> option (list string).
Variable upload_stream : nat -> UploadParams -> UploadFile -> CdnOutcome.
Variable insert_fault : nat -> option string.
Variable clock : nat -> Z.

Local Abbreviation processFile :=
  (processFile upload_stream insert_fault clock).
Local Abbreviation loop := (loop upload_stream insert_fault clock).
Local Abbreviation bulkUpload :=
  (bulkUpload JSON_parse_array upload_stream insert_fault clock).

Lemma validMediaType_Some (field : BodyField) (media_type : string) :
  validMediaType field = Some media_type ->
  media_type = "image" \/ media_type = "gif".
Proof.
  destruct field as [|s|xs|]; try discriminate. simpl.
  destruct (String.eqb_spec s "image") as [->|_]; simpl;
    [intros [= <-]; now left|].
  destruct (String.eqb_spec s "gif") as [->|_]; [|discriminate].
  intros [= <-]. now right.
Qed.

(** A file that is stored adds one row, with the next id of the
    sequence, and changes nothing else. *)
Lemma processFile_stored (idx : nat) (file : UploadFile)
  (titles categories : list string) (media_type : string) (d d' : Db)
  (item : UploadedMediaItem) :
  media_type = "image" \/ media_type = "gif" ->
  processFile idx file titles categories media_type d = Ok (item, d') ->
  exists row,
    d' = mkDb (pool d) (media d ++ [row]) (next_id d + 1) (default_views d)
           (default_visible d) /\
    id row = next_id d /\ storedRowOk row /\ pool d = true /\
    item = mkItem (originalname file) (title row) (category row)
             (returning row).
Proof.
  intros Hmt. unfold Admin.processFile.
  destruct (String.eqb_spec (Js.trim (nth idx titles "undefined")) "")
    as [|Htitle]; [discriminate|].
  destruct (Auth.validateCategory _) as [category|] eqn:Hc; [|discriminate].
  apply validateCategory_Ok in Hc. destruct Hc as [_ Hallowed].
  cbn [bindExc].
  destruct (upload_stream _ _ _) as [m|[[|c u]|]]; try discriminate.
  unfold insertMedia, getConnection.
  destruct (pool d); cbn [negb bindExc]; [|discriminate].
  destruct (insert_fault idx); [discriminate|].
  cbn [bindExc]. intros [= <- <-].
  eexists. split; [reflexivity|]. split; [reflexivity|].
  split; [|split; reflexivity].
  unfold storedRowOk. cbn.
  repeat split; try assumption; try discriminate.
  apply trim_idempotent.
Qed.

(** A file that is not stored leaves the database as it is (by the
    definition of the [catch]); without a pool no file is stored. *)
Lemma processFile_without_pool (idx : nat) (file : UploadFile)
  (titles categories : list string) (media_type : string) (d : Db) :
  pool d = false ->
  exists msg,
    processFile idx file titles categories media_type d = Throw msg.
Proof.
  intros Hpool. unfold Admin.processFile.
  destruct (String.eqb _ ""); [eauto|].
  destruct (Auth.validateCategory _); cbn [bindExc]; [|eauto].
  destruct (upload_stream _ _ _) as [m|[[|c u]|]]; eauto.
  unfold insertMedia, getConnection. rewrite Hpool. cbn. eauto.
Qed.

(** The rows the loop adds, their ids and the sequence. *)
Lemma loop_stored (files : list UploadFile)
  (titles categories : list string) (media_type : string) :
  media_type = "image" \/ media_type = "gif" ->
  forall idx st,
    let st' := loop idx files titles categories media_type st in
    exists added,
      media (db st') = media (db st) ++ added /\
      Forall storedRowOk added /\
      map id added
      = map (fun i => next_id (db st) + Z.of_nat i)
            (seq 0 (List.length added)) /\
      next_id (db st') = next_id (db st) + Z.of_nat (List.length added) /\
      (List.length added <= List.length files)%nat.
Proof.
  intros Hmt. induction files as [|file rest IH]; intros idx st; cbn zeta.
  - exists []. simpl. rewrite app_nil_r. repeat split; try constructor; lia.
  - cbn [Admin.loop]. unfold Admin.step.
    destruct (processFile idx file titles categories media_type (db st))
      as [[item d']|msg] eqn:E.
    + destruct (processFile_stored _ _ _ _ _ _ _ _ Hmt E)
        as (row & -> & Hid & Hrow & _ & _).
      match goal with
      | |- context [loop (S idx) rest _ _ _ ?s] =>
          destruct (IH (S idx) s) as (added & Hm & Hok & Hids & Hnext & Hle)
      end.
      cbn [db media next_id] in Hm, Hids, Hnext.
      exists (row :: added). rewrite Hm, Hnext, <- app_assoc.
      cbn [app List.length seq map]. repeat split.
      * now constructor.
      * rewrite Hid, Z.add_0_r. f_equal. rewrite Hids.
        rewrite <- seq_shift, map_map. apply map_ext. intros i. lia.
      * lia.
      * lia.
    + match goal with
      | |- context [loop (S idx) rest _ _ _ ?s] =>
          destruct (IH (S idx) s) as (added & Hm & Hok & Hids & Hnext & Hle)
      end.
      cbn [db] in Hm, Hids, Hnext.
      exists added. repeat split; try assumption. cbn [List.length]. lia.
Qed.

(** Without a pool the loop records one error per file and nothing
    else. *)
Lemma loop_without_pool (files : list UploadFile)
  (titles categories : list string) (media_type : string) :
  forall idx st,
    pool (db st) = false ->
    let st' := loop idx files titles categories media_type st in
    uploadedMedia st' = uploadedMedia st /\
    db st' = db st /\
    successCount st' = successCount st /\
    failedCount st' = failedCount st + Z.of_nat (List.length files) /\
    List.length (errors st')
    = (List.length (errors st) + List.length files)%nat.
Proof.
  induction files as [|file rest IH]; intros idx st Hpool; cbn zeta.
  - simpl. repeat split; lia.
  - cbn [Admin.loop]. unfold Admin.step.
    destruct (processFile_without_pool idx file titles categories media_type
                (db st) Hpool) as [msg ->].
    match goal with
    | |- context [loop (S idx) rest _ _ _ ?s] =>
        destruct (IH (S idx) s Hpool) as (Hu & Hd & Hs & Hf & He)
    end.
    cbn [uploadedMedia db successCount failedCount errors] in *.
    rewrite Hu, Hd, Hs, Hf, He, length_app. cbn [List.length].
    repeat split; lia.
Qed.

(** The table after the handler, whatever it answers. *)
Lemma bulkUpload_stored (cloud_name : option string)
  (files : list UploadFile)
  (titlesField categoriesField media_typeField : BodyField) (d : Db) :
  exists added,
    media (snd (bulkUpload cloud_name files titlesField categoriesField
                  media_typeField d))
    = media d ++ added /\
    Forall storedRowOk added /\
    map id added
    = map (fun i => next_id d + Z.of_nat i) (seq 0 (List.length added)) /\
    next_id (snd (bulkUpload cloud_name files titlesField categoriesField
                    media_typeField d))
    = next_id d + Z.of_nat (List.length added) /\
    (List.length added <= List.length files)%nat.
Proof.
  assert (Hnone : forall r : AdminResponse,
             exists added,
               media (snd (r, d)) = media d ++ added /\
               Forall storedRowOk added /\
               map id added
               = map (fun i => next_id d + Z.of_nat i)
                     (seq 0 (List.length added)) /\
               next_id (snd (r, d))
               = next_id d + Z.of_nat (List.length added) /\
               (List.length added <= List.length files)%nat).
  { intros r. exists []. simpl. rewrite app_nil_r.
    repeat split; try constructor; lia. }
  unfold Admin.bulkUpload.
  destruct cloud_name as [[|c0 cn]|]; try apply Hnone.
  destruct (List.length files =? 0)%nat; [apply Hnone|].
  destruct (negb (List.length (normalizeTitles _ _) =? _)%nat);
    [apply Hnone|].
  destruct (negb (List.length (normalizeCategories _ _) =? _)%nat);
    [apply Hnone|].
  destruct (validMediaType media_typeField) as [mt|] eqn:Hmt;
    [|apply Hnone].
  apply validMediaType_Some in Hmt. cbn [snd].
  apply (loop_stored files _ _ mt Hmt 0 (mkLoop [] [] 0 0 d)).
Qed.

(** X15: every row a bulk upload adds has a category of the allow-list, the
    media type [image] or [gif], a title that is not empty and has no white
    space around it, a URL that is not empty, and equal creation and update
    times; the rows already in the table stay as they are, in front of the
    new ones, and at most one row per file is added. *)
Theorem bulk_upload_stores_well_formed_rows
  (cloud_name : option string) (files : list UploadFile)
  (titlesField categoriesField media_typeField : BodyField) (d : Db) :
  exists added,
    media (snd (bulkUpload cloud_name files titlesField categoriesField
                  media_typeField d))
    = media d ++ added /\
    Forall storedRowOk added /\
    (List.length added <= List.length files)%nat.
Proof.
  destruct (bulkUpload_stored cloud_name files titlesField categoriesField
              media_typeField d) as (added & Hm & Hok & _ & _ & Hle).
  exists added. repeat split; assumption.
Qed.


(** X17: without a pool, a batch that passes the checks before the loop is
    still answered with 200: no file is stored, every file is counted as
    failed and has its error, and the database stays as it is. *)
Theorem bulk_upload_without_pool
  (cloud_name : string) (files : list UploadFile)
  (titlesField categoriesField media_typeField : BodyField) (d : Db)
  (media_type : string) :
  let nfiles := List.length files in
  cloud_name <> "" ->
  files <> [] ->
  List.length
    (normalizeTitles (normalizeArrayField JSON_parse_array titlesField)
       nfiles) = nfiles ->
  List.length
    (normalizeCategories
       (normalizeArrayField JSON_parse_array categoriesField) nfiles)
  = nfiles ->
  validMediaType media_typeField = Some media_type ->
  pool d = false ->
  exists errs,
    bulkUpload (Some cloud_name) files titlesField categoriesField
      media_typeField d
    = (mkAdminResponse 200 (BulkUploadResponse 0 (Z.of_nat nfiles) [] errs),
       d) /\
    List.length errs = nfiles.
Proof.
  intros nfiles Hcloud Hfiles Ht Hc Hm Hpool.
  rewrite (bulkUpload_valid JSON_parse_array upload_stream insert_fault clock
             cloud_name files titlesField categoriesField media_typeField d
             media_type Hcloud Hfiles Ht Hc Hm).
  cbn zeta.
  destruct (loop_without_pool files
              (normalizeTitles
                 (normalizeArrayField JSON_parse_array titlesField)
                 (List.length files))
              (normalizeCategories
                 (normalizeArrayField JSON_parse_array categoriesField)
                 (List.length files))
              media_type 0 (mkLoop [] [] 0 0 d) Hpool)
    as (Hu & Hd & Hs & Hf & He).
  cbn [uploadedMedia db successCount failedCount errors List.length] in *.
  eexists. split; [|exact He].
  rewrite Hu, Hd, Hs, Hf. reflexivity.
Qed.

End BulkUploadRows.


Lemma bulk_upload_without_pool_witness :
  exists errs,
    Admin.bulkUpload sample_parse sample_cdn sample_fault sample_clock
      (Some "demo") sample_files (Admin.FString "Sunset")
      (Admin.FString "Nature") (Admin.FString "image")
      (Sql.mkDb false [] 1 0 true)
    = (Admin.mkAdminResponse 200 (Admin.BulkUploadResponse 0 3 [] errs),
       Sql.mkDb false [] 1 0 true) /\
    List.length errs = 3%nat.
Proof.
  assert (Hcloud : "demo" <> "") by discriminate.
  assert (Hfiles : sample_files <> []) by discriminate.
  exact (bulk_upload_without_pool sample_parse sample_cdn sample_fault
           sample_clock "demo" sample_files (Admin.FString "Sunset")
           (Admin.FString "Nature") (Admin.FString "image")
           (Sql.mkDb false [] 1 0 true) "image" Hcloud Hfiles eq_refl
           eq_refl eq_refl eq_refl).
Defined.

(** ** Login *)

Section LoginProperties.

Import Auth Login.

Lemma envOr_nonempty (value : option string) (d : string) :
  d <> "" -> envOr value d <> "".
Proof. destruct value as [[|c s]|]; simpl; auto; discriminate. Qed.

Lemma truthy_VStr (s : string) : s <> "" -> truthy (VStr s) = true.
Proof.
  intros H. simpl. apply negb_true_iff.
  now destruct (String.eqb_spec s "").
Qed.

Lemma differs_false (v : JsVal) (s : string) :
  differs v s = false <-> v = VStr s.
Proof.
  destruct v; simpl; try (split; discriminate).
  rewrite negb_false_iff, String.eqb_eq. split; congruence.
Qed.

Lemma startsWith_Bearer_append (token : string) :
  Js.startsWith ("Bearer " ++ token) "Bearer " = true.
Proof. destruct token; reflexivity. Qed.

End LoginProperties.

(** X18: with the configured user name and password (the environment
    values, or [admin] and [password] when a value is unset or empty), the
    login answers 200 with the token signed for the claims [sub] = user
    name, [is_admin] = true and [exp] = the current second plus 60 times
    the lifetime in minutes, or 500 when signing throws; with anything else
    it answers 400 (a field missing or falsy) or 401, and never signs. *)
Theorem login_outcomes
  (jwt_sign : Auth.AdminPayload -> Exc string) (expireMinutes now : Z)
  (envUser envPass : option string) (username password : Auth.JsVal) :
  let user := Login.ADMIN_USERNAME envUser in
  let pass := Login.ADMIN_PASSWORD envPass in
  let r := Login.login jwt_sign expireMinutes now user pass username
             password in
  (username = Auth.VStr user /\ password = Auth.VStr pass ->
   r = match jwt_sign
               (Auth.mkPayload (Auth.VStr user) (Auth.VBool true)
                  (Auth.VNum (now / 1000 + expireMinutes * 60))) with
       | Ok token => Login.mkLogin 200 (Login.LoginToken token)
       | Throw msg => Login.mkLogin 500 (Login.LoginError msg)
       end) /\
  (Login.status r = 400 <->
   Auth.truthy username = false \/ Auth.truthy password = false) /\
  (~ (username = Auth.VStr user /\ password = Auth.VStr pass) ->
   r = Login.mkLogin 400 (Login.LoginError "Username and password required")
   \/ r = Login.mkLogin 401 (Login.LoginError "Invalid credentials")).
Proof.
  cbn zeta.
  pose proof (envOr_nonempty envUser "admin" ltac:(discriminate)) as Hu.
  pose proof (envOr_nonempty envPass "password" ltac:(discriminate)) as Hp.
  fold (Login.ADMIN_USERNAME envUser) in Hu.
  fold (Login.ADMIN_PASSWORD envPass) in Hp.
  unfold Login.login, Login.createJwtToken.
  split; [|split].
  - intros [-> ->]. rewrite !truthy_VStr by assumption. cbn [negb orb].
    rewrite !(proj2 (differs_false _ _) eq_refl). reflexivity.
  - destruct (Auth.truthy username), (Auth.truthy password);
      cbn [negb orb Login.status];
      try (split; intros; auto; reflexivity).
    split; [|intros [H|H]; discriminate H].
    destruct (_ || _); [discriminate|].
    destruct (jwt_sign _); discriminate.
  - intros Hnot.
    destruct (negb (Auth.truthy username) || negb (Auth.truthy password));
      [now left|].
    destruct (Login.differs username _) eqn:Du; [now right|].
    destruct (Login.differs password _) eqn:Dp; [now right|].
    apply differs_false in Du, Dp. tauto.
Qed.

Lemma login_outcomes_witness :
  Login.login sample_sign 60 1700000500 "admin" "password"
    (Auth.VStr "admin") (Auth.VStr "password")
  = Login.mkLogin 200 (Login.LoginToken "signed-admin") /\
  Login.login sample_sign 60 1700000500 "admin" "password"
    (Auth.VStr "admin") (Auth.VStr "guess")
  = Login.mkLogin 401 (Login.LoginError "Invalid credentials").
Proof.
  destruct (login_outcomes sample_sign 60 1700000500 None (Some "")
              (Auth.VStr "admin") (Auth.VStr "password")) as (Hok & _).
  destruct (login_outcomes sample_sign 60 1700000500 None None
              (Auth.VStr "admin") (Auth.VStr "guess")) as (_ & _ & Hbad).
  split; [apply Hok; split; reflexivity|].
  destruct Hbad as [H|H];
    [intros [_ H]; discriminate H | discriminate H | exact H].
Defined.

(** X19: when the token library verifies the token it signed for the
    login, the request that carries the token of a successful login as
    [Bearer] header passes the admin middleware, with the claims of the
    login. *)
Theorem login_token_passes_middleware
  (jwt_sign : Auth.AdminPayload -> Exc string)
  (jwt_verify : string -> Auth.VerifyOutcome) (expireMinutes now : Z)
  (envUser envPass : option string) (token : string) :
  let user := Login.ADMIN_USERNAME envUser in
  let pass := Login.ADMIN_PASSWORD envPass in
  let claims :=
    Auth.mkPayload (Auth.VStr user) (Auth.VBool true)
      (Auth.VNum (now / 1000 + expireMinutes * 60)) in
  jwt_sign claims = Ok token ->
  jwt_verify token = Auth.Verified claims ->
  Login.login jwt_sign expireMinutes now user pass (Auth.VStr user)
    (Auth.VStr pass)
  = Login.mkLogin 200 (Login.LoginToken token) /\
  Auth.authenticateAdmin jwt_verify (Some ("Bearer " ++ token))
  = Auth.Next claims.
Proof.
  intros user pass claims Hsign Hverify. split.
  - pose proof (envOr_nonempty envUser "admin" ltac:(discriminate)) as Hu.
    pose proof (envOr_nonempty envPass "password" ltac:(discriminate)) as Hp.
    unfold Login.login, Login.createJwtToken.
    rewrite !truthy_VStr by assumption. cbn [negb orb].
    rewrite !(proj2 (differs_false _ _) eq_refl). cbn [orb Auth.sub
      Auth.is_admin].
    fold user claims. now rewrite Hsign.
  - unfold Auth.authenticateAdmin.
    change (Js.substringFrom 7 ("Bearer " ++ token)) with token.
    rewrite startsWith_Bearer_append.
    change (String.eqb ("Bearer " ++ token) "") with false.
    cbn [negb orb]. rewrite Hverify. reflexivity.
Qed.

Lemma login_token_passes_middleware_witness :
  Login.login sample_sign 60 1700000500 "admin" "password"
    (Auth.VStr "admin") (Auth.VStr "password")
  = Login.mkLogin 200 (Login.LoginToken "signed-admin") /\
  Auth.authenticateAdmin sample_verify_signed (Some "Bearer signed-admin")
  = Auth.Next
      (Auth.mkPayload (Auth.VStr "admin") (Auth.VBool true)
         (Auth.VNum 1703600)).
Proof.
  exact (login_token_passes_middleware sample_sign sample_verify_signed 60
           1700000500 None None "signed-admin" eq_refl eq_refl).
Defined.



(** ** The connection pool *)

Section PoolProperties.

Import Database.

Lemma release_getConnection (pool held : PoolState) :
  getConnection pool = Ok held -> release held = pool.
Proof.
  unfold getConnection. destruct pool as [p|]; [|discriminate].
  destruct (checkedOut p <? max p)%nat; [|discriminate].
  intros [= <-]. destruct p. reflexivity.
Qed.

Lemma initDbFailures_checkedOut (msg : string) (k : nat) :
  forall p,
    (checkedOut p + k <= max p)%nat ->
    initDbFailures k msg (Some p)
    = Some (mkPool (connectionString p) (max p) (checkedOut p + k)).
Proof.
  induction k as [|k IH]; intros p H.
  - simpl. rewrite Nat.add_0_r. now destruct p.
  - cbn [initDbFailures]. unfold initDb, getConnection.
    destruct (Nat.ltb_spec (checkedOut p) (max p)) as [_|Hge]; [|lia].
    cbn [snd]. rewrite IH; cbn [checkedOut max connectionString]; [|lia].
    f_equal. f_equal. lia.
Qed.

End PoolProperties.

(** X21: [query] and [createTables] hand their client back whether the
    statement succeeds or throws: the pool after the call is the pool
    before it; and the result of [query] is the answer of the server when a
    client was free. *)
Theorem query_releases_its_client (A : Type) (pool : Database.PoolState)
  (run : Exc A) (schema : Exc unit) :
  snd (Database.query pool run) = pool /\
  snd (Database.createTables pool schema) = pool /\
  (forall held, Database.getConnection pool = Ok held ->
                fst (Database.query pool run) = run).
Proof.
  unfold Database.query, Database.createTables.
  destruct (Database.getConnection pool) as [held|msg] eqn:E; cbn [fst snd].
  - rewrite (release_getConnection pool held E). repeat split.
  - repeat split. discriminate.
Qed.

Lemma query_releases_its_client_witness :
  Database.query (Some (Database.mkPool "postgres://h/db" 5 2))
    (Throw "syntax error" : Exc nat)
  = (Throw "syntax error", Some (Database.mkPool "postgres://h/db" 5 2)).
Proof.
  destruct (query_releases_its_client nat
              (Some (Database.mkPool "postgres://h/db" 5 2))
              (Throw "syntax error") (Ok tt)) as (Hpool & _ & Hrun).
  rewrite (surjective_pairing (Database.query _ _)), Hpool.
  now rewrite (Hrun _ eq_refl).
Defined.

(** X22: the handler of [/init-db] hands its client back only when the
    statement succeeds; a statement that throws is answered with 500 and
    leaves one more client checked out.  So after as many such failures as
    the pool had free clients, no client is left: every later [query]
    throws the connection timeout, and [/init-db] itself answers 500. *)
Theorem init_db_keeps_client_on_failure
  (p : Database.Pool) (msg : string) :
  (Database.checkedOut p < Database.max p)%nat ->
  Database.initDb (Some p) (Ok tt) = (200, Some p) /\
  Database.initDb (Some p) (Throw msg)
  = (500,
     Some (Database.mkPool (Database.connectionString p) (Database.max p)
             (S (Database.checkedOut p)))) /\
  let exhausted :=
    initDbFailures (Database.max p - Database.checkedOut p) msg (Some p) in
  exhausted
  = Some (Database.mkPool (Database.connectionString p) (Database.max p)
            (Database.max p)) /\
  (forall (A : Type) (run : Exc A),
     Database.query exhausted run
     = (Throw "timeout exceeded when trying to connect", exhausted)) /\
  (forall run, Database.initDb exhausted run = (500, exhausted)).
Proof.
  intros Hfree.
  assert (Hlt : (Database.checkedOut p <? Database.max p)%nat = true)
    by now apply Nat.ltb_lt.
  split; [|split].
  - unfold Database.initDb, Database.getConnection. rewrite Hlt.
    cbn. now destruct p.
  - unfold Database.initDb, Database.getConnection. now rewrite Hlt.
  - cbn zeta. rewrite initDbFailures_checkedOut by lia.
    replace (Database.checkedOut p
             + (Database.max p - Database.checkedOut p))%nat
      with (Database.max p) by lia.
    split; [reflexivity|]. split; intros;
      unfold Database.query, Database.initDb, Database.getConnection;
      cbn [Database.checkedOut Database.max]; now rewrite Nat.ltb_irrefl.
Qed.

Lemma init_db_keeps_client_on_failure_witness :
  Database.initDb (Some (Database.mkPool "postgres://h/db" 5 0))
    (Throw "permission denied")
  = (500, Some (Database.mkPool "postgres://h/db" 5 1)) /\
  Database.query
    (initDbFailures 5 "permission denied"
       (Some (Database.mkPool "postgres://h/db" 5 0)))
    (Ok 1)
  = (Throw "timeout exceeded when trying to connect",
     Some (Database.mkPool "postgres://h/db" 5 5)).
Proof.
  destruct (init_db_keeps_client_on_failure
              (Database.mkPool "postgres://h/db" 5 0) "permission denied"
              ltac:(simpl; lia)) as (_ & Hfail & Hex & Hq & _).
  split; [exact Hfail|].
  cbn [Database.max Database.checkedOut Nat.sub] in Hex, Hq.
  rewrite (Hq Z (Ok 1)). now rewrite Hex.
Defined.

(** X23: [initializeDatabaseOnce] never replaces a pool that exists and
    does nothing once the flag is up; without a [DATABASE_URL] it leaves
    the state without a pool, so that [getConnection] keeps throwing
    [Database not initialized]; with one, it creates the pool of five
    clients for the URL with [sslmode], none of them checked out, and
    raises the flag exactly when the schema statement succeeds. *)
Theorem initializeDatabaseOnce_outcomes
  (DATABASE_URL : option string) (run : Exc unit)
  (st : bool * Database.PoolState) :
  let st' := Database.initializeDatabaseOnce DATABASE_URL run st in
  (fst st = true -> st' = st) /\
  (forall p, snd st = Some p -> snd st' = Some p) /\
  (st = (false, None) ->
   match DATABASE_URL with
   | None | Some EmptyString =>
       st' = (false, None) /\
       Database.getConnection (snd st') = Throw "Database not initialized"
   | Some url =>
       snd st' = Some (Database.mkPool (Database.buildDatabaseUrl url) 5 0)
       /\ (fst st' = true <-> exists u, run = Ok u)
   end).
Proof.
  destruct st as [flag pool]. cbn zeta. cbn [fst snd].
  split; [|split].
  - intros ->. reflexivity.
  - intros p ->. unfold Database.initializeDatabaseOnce.
    destruct flag; [reflexivity|].
    cbn [Database.initializeDatabase]. unfold Database.createTables.
    destruct (Database.getConnection (Some p)) as [held|m] eqn:E.
    + rewrite (release_getConnection _ _ E). now destruct run.
    + reflexivity.
  - intros [= -> ->]. unfold Database.initializeDatabaseOnce.
    destruct DATABASE_URL as [[|c url]|]; cbn [Database.initializeDatabase];
      try (split; reflexivity).
    unfold Database.createTables, Database.getConnection.
    cbn [Database.checkedOut Database.max Nat.ltb Nat.leb Database.release
           Database.connectionString Nat.pred].
    destruct run as [u|m]; cbn [fst snd].
    + split; [reflexivity|]. split; [now exists u | reflexivity].
    + split; [reflexivity|]. split; [discriminate|].
      intros [u H]. discriminate H.
Qed.

Lemma initializeDatabaseOnce_outcomes_witness :
  Database.initializeDatabaseOnce None (Ok tt) (false, None)
  = (false, None) /\
  Database.initializeDatabaseOnce (Some "postgres://h/db") (Ok tt)
    (false, None)
  = (true, Some (Database.mkPool "postgres://h/db?sslmode=require" 5 0)).
Proof.
  destruct (initializeDatabaseOnce_outcomes None (Ok tt) (false, None))
    as (_ & _ & Hnone).
  destruct (initializeDatabaseOnce_outcomes (Some "postgres://h/db") (Ok tt)
              (false, None)) as (_ & _ & Hsome).
  split; [exact (proj1 (Hnone eq_refl))|].
  destruct (Hsome eq_refl) as [Hpool Hflag].
  rewrite (surjective_pairing (Database.initializeDatabaseOnce _ _ _)).
  rewrite Hpool, (proj2 Hflag (ex_intro _ tt eq_refl)). reflexivity.
Defined.

(** ** The record counts *)

Section TablesProperties.

Import Sql Tables.

Lemma parseCount_sumCase (t : string) (rows : list MediaRow) :
  parseCount (sumCase t rows)
  = Z.of_nat
      (List.length (filter (fun r => String.eqb (media_type r) t) rows)).
Proof.
  unfold parseCount, sumCase. destruct rows as [|r rows]; [reflexivity|].
  apply parseTotal_natToString.
Qed.

Lemma length_filter_two (f g : MediaRow -> bool) (rows : list MediaRow) :
  (forall r, f r = true -> g r = true -> False) ->
  (List.length (filter f rows) + List.length (filter g rows)
   <= List.length rows)%nat.
Proof.
  intros Hfg. induction rows as [|r rows IH]; simpl; [lia|].
  destruct (f r) eqn:F, (g r) eqn:G; simpl; try lia.
  exfalso. eauto.
Qed.

Lemma length_filter_cover (f g : MediaRow -> bool) (rows : list MediaRow) :
  (forall r, f r = true -> g r = true -> False) ->
  Forall (fun r => f r = true \/ g r = true) rows ->
  (List.length (filter f rows) + List.length (filter g rows))%nat
  = List.length rows.
Proof.
  intros Hfg H. induction H as [|r rows Hr _ IH]; simpl; [reflexivity|].
  destruct (f r) eqn:F, (g r) eqn:G; simpl; try lia;
    try (exfalso; eauto; fail); destruct Hr; discriminate.
Qed.

End TablesProperties.

(** X24: while the pool exists, [/tables] answers 200 with the number of
    rows of the table, of its image rows and of its gif rows, hidden rows
    included; on an empty table the two sums are [NULL] and all three
    numbers are 0; images and gifs never add up to more than the total,
    and add up to it when every row is an image or a gif. *)
Theorem tables_counts (d : Sql.Db) :
  Sql.pool d = true ->
  Tables.tables d
  = Tables.mkTables 200
      (Tables.TablesOk "ok" ["media"]
         (Z.of_nat (List.length (Sql.media d)))
         (rowsOfType "image" d) (rowsOfType "gif" d)) /\
  rowsOfType "image" d + rowsOfType "gif" d
  <= Z.of_nat (List.length (Sql.media d)) /\
  (Forall (fun r => Sql.media_type r = "image" \/ Sql.media_type r = "gif")
     (Sql.media d) ->
   rowsOfType "image" d + rowsOfType "gif" d
   = Z.of_nat (List.length (Sql.media d))).
Proof.
  intros Hpool.
  assert (Hdisj : forall r : Sql.MediaRow,
             String.eqb (Sql.media_type r) "image" = true ->
             String.eqb (Sql.media_type r) "gif" = true -> False).
  { intros r Hi Hg. apply String.eqb_eq in Hi, Hg. congruence. }
  split; [|split].
  - unfold Tables.tables, Sql.getConnection. rewrite Hpool. cbn [negb].
    rewrite !parseCount_sumCase. unfold Tables.parseCount.
    change (Js.orDefault (Js.parseInt (Js.natToString ?n)) 0)
      with (Media.parseTotal (Js.natToString n)).
    now rewrite parseTotal_natToString.
  - unfold rowsOfType.
    pose proof (length_filter_two _ _ (Sql.media d) Hdisj). lia.
  - intros Hall. unfold rowsOfType.
    rewrite <- (length_filter_cover _ _ (Sql.media d) Hdisj); [lia|].
    eapply Forall_impl; [|exact Hall].
    intros r [H|H]; [left | right]; now apply String.eqb_eq.
Qed.

Lemma tables_counts_witness :
  Tables.tables sample_db
  = Tables.mkTables 200 (Tables.TablesOk "ok" ["media"] 5 4 1) /\
  Tables.tables (Sql.mkDb true [] 1 0 true)
  = Tables.mkTables 200 (Tables.TablesOk "ok" ["media"] 0 0 0).
Proof.
  split.
  - exact (proj1 (tables_counts sample_db eq_refl)).
  - exact (proj1 (tables_counts (Sql.mkDb true [] 1 0 true) eq_refl)).
Defined.

(** X25: [/tables] discloses the counts only to a request whose
    [Authorization] header starts with the bearer scheme and whose token
    the library verifies with a truthy [is_admin]; any other request gets
    the 401 or 403 of the middleware and the handler does not run. *)
Theorem tables_route_requires_admin
  (jwt_verify : string -> Auth.VerifyOutcome) (authorization : option string)
  (d : Sql.Db) :
  let r := Tables.tablesRoute jwt_verify authorization d in
  (Tables.status r = 200 ->
   exists h decoded,
     authorization = Some h /\
     Js.startsWith h "Bearer " = true /\
     jwt_verify (Js.substringFrom 7 h) = Auth.Verified decoded /\
     Auth.truthy (Auth.is_admin decoded) = true /\
     r = Tables.tables d) /\
  (forall st msg,
     Auth.authenticateAdmin jwt_verify authorization = Auth.Rejected st msg ->
     r = Tables.mkTables st (Tables.TablesError msg) /\
     (st = 401 \/ st = 403)).
Proof.
  cbn zeta. unfold Tables.tablesRoute, Auth.authenticateAdmin.
  destruct authorization as [h|]; cbn [Tables.status];
    [|split; [discriminate | intros st msg [= <- <-]; split; auto]].
  destruct (String.eqb h ""); cbn [orb Tables.status];
    [split; [discriminate | intros st msg [= <- <-]; split; auto]|].
  destruct (Js.startsWith h "Bearer ") eqn:Hs; cbn [negb Tables.status];
    [|split; [discriminate | intros st msg [= <- <-]; split; auto]].
  destruct (jwt_verify (Js.substringFrom 7 h)) as [decoded|name] eqn:Hv.
  - destruct (Auth.truthy (Auth.is_admin decoded)) eqn:Ht;
      cbn [negb Tables.status].
    + split; [|discriminate]. intros _. exists h, decoded. auto.
    + split; [discriminate | intros st msg [= <- <-]; split; auto].
  - destruct (String.eqb name "TokenExpiredError"); cbn [Tables.status];
      (split; [discriminate | intros st msg [= <- <-]; split; auto]).
Qed.

Lemma tables_route_requires_admin_witness :
  Tables.tablesRoute sample_verify (Some "Bearer user-token") sample_db
  = Tables.mkTables 403 (Tables.TablesError "Insufficient permissions") /\
  Tables.tablesRoute sample_verify (Some "Bearer admin-token") sample_db
  = Tables.mkTables 200 (Tables.TablesOk "ok" ["media"] 5 4 1).
Proof.
  destruct (tables_route_requires_admin sample_verify
              (Some "Bearer user-token") sample_db) as (_ & Hrej).
  destruct (tables_route_requires_admin sample_verify
              (Some "Bearer admin-token") sample_db) as (Hok & _).
  split.
  - exact (proj1 (Hrej 403 "Insufficient permissions" eq_refl)).
  - destruct (Hok eq_refl) as (h & decoded & _ & _ & _ & _ & Hr).
    rewrite Hr. reflexivity.
Defined.

(** ** Random selection on an empty selection *)



(** ** White space around a category *)

Section PaddedCategory.

Import Js Auth.











End PaddedCategory.


